(** * iMessage exporter: the transcript engine of [imessage_export.py]

    A shallow embedding of the readable-export half of the program
    (timestamp normalisation, file-name sanitising, reaction
    classification, attachment materialisation and the transcript
    assembler) together with the properties its specification states.

    Conventions.  A Python [str] is a list of Unicode code points, an
    [int] is a [Z], a [float] is a binary64 primitive float, a value that
    may be [None] is an [option], and a call that may raise returns a
    [result].  The file system is the finite list of the paths that
    exist; creating a directory and writing a transcript are taken to
    succeed, and a copy completes or raises an [OSError] as the host
    decides, with or without leaving its destination behind.  Output on
    the terminal ([print]) is not modelled.

    The definitions come first: the Python values, [os.path], the host,
    the program in the order of the source, a reference host and sample
    data.  The properties follow, component by component. *)

From Stdlib Require Import ZArith NArith List Bool String Ascii Lia Floats.
From Stdlib Require Import DecimalString DecimalNat FinFun.
Import ListNotations.

Set Implicit Arguments.

(** ** Python values *)

Module Py.

(** [str]: a sequence of code points. *)
Definition str := list N.

(** An ASCII literal as a [str]. *)
Definition lit (s : string) : str :=
  map N_of_ascii (list_ascii_of_string s).

Definition str_eqb (a b : str) : bool :=
  if list_eq_dec N.eq_dec a b then true else false.

Definition nonempty (s : str) : bool :=
  match s with
  | [] => false
  | _ :: _ => true
  end.

(** Truthiness of a nullable string: [None] and [""] are falsy. *)
Definition truthy (o : option str) : bool :=
  match o with
  | Some s => nonempty s
  | None => false
  end.

(** Truthiness of a nullable integer: [None] and [0] are falsy. *)
Definition truthy_int (o : option Z) : bool :=
  match o with
  | Some z => negb (z =? 0)%Z
  | None => false
  end.

(** [a or b] where [a] is a nullable string and [b] a string. *)
Definition or_else (a : option str) (b : str) : str :=
  match a with
  | Some (c :: r) => c :: r
  | _ => b
  end.

(** [str(n)] for a natural number and for an integer. *)
Definition str_of_nat (n : nat) : str :=
  lit (NilEmpty.string_of_uint (Nat.to_uint n)).

Definition str_of_int (z : Z) : str :=
  match z with
  | Zneg p => lit "-" ++ str_of_nat (Pos.to_nat p)
  | _ => str_of_nat (Z.to_nat z)
  end.

(** [str.isspace] of one character, which is also the class [\s] of
    [re] on [str] patterns. *)
Definition isspace (c : N) : bool :=
  ((9 <=? c) && (c <=? 13) || (28 <=? c) && (c <=? 32)
   || (c =? 133) || (c =? 160) || (c =? 5760)
   || (8192 <=? c) && (c <=? 8202)
   || (c =? 8232) || (c =? 8233) || (c =? 8239) || (c =? 8287)
   || (c =? 12288))%N.

Fixpoint lstrip (s : str) : str :=
  match s with
  | [] => []
  | c :: r => if isspace c then lstrip r else s
  end.

Fixpoint rstrip (s : str) : str :=
  match s with
  | [] => []
  | c :: r =>
      match rstrip r with
      | [] => if isspace c then [] else [c]
      | r' => c :: r'
      end
  end.

(** [s.strip()] *)
Definition strip (s : str) : str := rstrip (lstrip s).

(** [s.startswith(p)] *)
Fixpoint startswith (p s : str) : bool :=
  match p, s with
  | [], _ => true
  | _ :: _, [] => false
  | a :: p', b :: s' => (a =? b)%N && startswith p' s'
  end.

(** [s.endswith(p)] *)
Definition endswith (p s : str) : bool := startswith (rev p) (rev s).

(** [needle in hay] *)
Fixpoint contains (needle hay : str) : bool :=
  startswith needle hay ||
  match hay with
  | [] => false
  | _ :: r => contains needle r
  end.

(** [s.replace(old, new)] for a one-character [old]. *)
Definition replace (old : N) (new : str) (s : str) : str :=
  flat_map (fun c => if (c =? old)%N then new else [c]) s.

(** [sep.join(parts)] *)
Fixpoint join (sep : str) (parts : list str) : str :=
  match parts with
  | [] => []
  | [p] => p
  | p :: rest => p ++ sep ++ join sep rest
  end.

(** Exceptions that reach the model, and the outcome of a call. *)
Inductive exn : Set := ValueError | OverflowError | OSError.

Inductive result (A : Type) : Type :=
| Returns (a : A)
| Raises (e : exn).
Arguments Raises {A} e.

Definition bind {A B} (m : result A) (k : A -> result B) : result B :=
  match m with
  | Returns a => k a
  | Raises e => Raises e
  end.

Definition fmap {A B} (f : A -> B) (m : result A) : result B :=
  bind m (fun a => Returns (f a)).

(** [float(z)]: the nearest binary64, ties to even. *)
Definition float_of_int (z : Z) : float :=
  SF2Prim (binary_normalize prec emax z 0 false).

(** [z > f] for an int and a float.  Python compares the two exactly,
    without rounding the int. *)
Definition int_gt_float (z : Z) (f : float) : bool :=
  match Prim2SF f with
  | S754_zero _ => (0 <? z)%Z
  | S754_infinity s => s
  | S754_nan => false
  | S754_finite s m e =>
      let v := if s then Zneg m else Zpos m in
      if (0 <=? e)%Z then (v * 2 ^ e <? z)%Z
      else (v <? z * 2 ^ (- e))%Z
  end.

End Py.

Import Py.

Notation "x <- m ;; k" := (bind m (fun x => k))
  (at level 61, m at next level, right associativity).

(** ** [os.path] on a POSIX host *)

Module os_path.

Definition sep : N := 47.
Definition extsep : N := 46.

(** The file system as far as the exporter observes it: the paths that
    exist.  Paths are compared as written. *)
Definition filesystem := list str.

(** [os.path.exists(p)] *)
Definition exists_ (fs : filesystem) (p : str) : bool :=
  existsb (str_eqb p) fs.

(** The effect of creating [p] (a file or a directory). *)
Definition create (p : str) (fs : filesystem) : filesystem :=
  if exists_ fs p then fs else p :: fs.

(** [os.path.join(a, b)] *)
Definition join (a b : str) : str :=
  if startswith [sep] b then b
  else if negb (nonempty a) || endswith [sep] a then a ++ b
  else a ++ [sep] ++ b.

(** [os.path.basename(p)]: what follows the last separator. *)
Fixpoint basename (p : str) : str :=
  match p with
  | [] => []
  | c :: r =>
      if existsb (N.eqb sep) r then basename r
      else if (c =? sep)%N then r
      else c :: r
  end.

(** [p.rfind(c)], [-1] when [c] does not occur. *)
Fixpoint rfind_from (i : Z) (c : N) (p : str) : Z :=
  match p with
  | [] => -1
  | x :: r =>
      let j := rfind_from (i + 1) c r in
      if (0 <=? j)%Z then j else if (x =? c)%N then i else -1
  end.

Definition rfind (c : N) (p : str) : Z := rfind_from 0 c p.

(** [p[i:j]] for [0 <= i]. *)
Definition slice (p : str) (i j : Z) : str :=
  firstn (Z.to_nat (j - i)) (skipn (Z.to_nat i) p).

(** [os.path.splitext(p)]: the extension starts at the last dot of the
    last component, unless only dots precede it there. *)
Definition splitext (p : str) : str * str :=
  let sepIndex := rfind sep p in
  let dotIndex := rfind extsep p in
  if (sepIndex <? dotIndex)%Z then
    if existsb (fun c => negb (c =? extsep)%N) (slice p (sepIndex + 1) dotIndex)
    then (firstn (Z.to_nat dotIndex) p, skipn (Z.to_nat dotIndex) p)
    else (p, [])
  else (p, []).

End os_path.

(** ** The host the process runs on *)

(** How [shutil.copy2(src, dst)] ends.  It completes, or it raises an
    [OSError]; it opens the destination for writing before it copies the
    data and the metadata, so a copy that fails may leave the destination
    behind.  Exceptions of other classes, which the handler of the
    materialiser lets through, are not modelled. *)
Inductive copy2_outcome : Set :=
| Copied
| Failed (created : bool).

(** What the program takes from its interpreter and operating system:
    the local calendar, case folding, the home directory, and how a copy
    ends. *)
Class Host : Type := {
  (** [datetime.datetime] values *)
  datetime : Type;
  (** [datetime.datetime(year, month, day)]: midnight of a valid date *)
  datetime_ymd : Z -> Z -> Z -> datetime;
  (** [dt.timestamp()] of a naive [dt], which is read in local time *)
  datetime_timestamp : datetime -> float;
  (** [datetime.datetime.fromtimestamp(x)], in local time; raises
      outside the range the platform supports *)
  fromtimestamp : float -> result datetime;
  (** [dt.strftime("%Y-%m-%d %-I:%M %p")] *)
  strftime : datetime -> str;
  (** [s.lower()] *)
  lower : str -> str;
  (** [os.path.expanduser(p)] *)
  expanduser : str -> str;
  (** [shutil.copy2(src, dst)] on the given file system *)
  copy2 : os_path.filesystem -> str -> str -> copy2_outcome
}.

(** ** Module constants *)

(** [datetime.datetime(2001, 1, 1).timestamp()], computed once when the
    module is loaded. *)
Definition APPLE_EPOCH_OFFSET `{Host} : float :=
  datetime_timestamp (datetime_ymd 2001 1 1).

(** The object-replacement character U+FFFC. *)
Definition OBJECT_REPLACEMENT : N := 65532.

(** ** Timestamp normaliser *)

Definition apple_timestamp_to_datetime `{Host} (timestamp : option Z)
  : result (option datetime) :=
  match timestamp with
  | None => Returns None
  | Some t =>
      if (t =? 0)%Z then Returns None
      else
        let timestamp :=
          if int_gt_float t 1e15 then (float_of_int t / 1e9)%float
          else if int_gt_float t 1e12 then (float_of_int t / 1e9)%float
          else float_of_int t in
        fmap Some (fromtimestamp (timestamp + APPLE_EPOCH_OFFSET)%float)
  end.

(** ** File-name sanitiser *)

(** The class of characters refused in file names: the controls
    U+0000 to U+001F, the angle brackets, the colon, the double quote,
    the slash, the backslash, the bar, the question mark and the star. *)
Definition invalid_char (c : N) : bool :=
  ((c <=? 31) || (c =? 60) || (c =? 62) || (c =? 58) || (c =? 34)
   || (c =? 47) || (c =? 92) || (c =? 124) || (c =? 63) || (c =? 42))%N.

Definition underscore : N := 95.
Definition space : N := 32.

(** The class [[_\s]]. *)
Definition blank_char (c : N) : bool := (c =? underscore)%N || isspace c.

(** [re.sub] of that class by an underscore. *)
Definition replace_invalid (name : str) : str :=
  map (fun c => if invalid_char c then underscore else c) name.

(** [re.sub(r'[_\s]+', ' ', s)]: every maximal run of blanks becomes one
    space.  [in_run] tells that the previous character was a blank. *)
Fixpoint collapse_from (in_run : bool) (s : str) : str :=
  match s with
  | [] => []
  | c :: r =>
      if blank_char c
      then (if in_run then collapse_from true r
            else space :: collapse_from true r)
      else c :: collapse_from false r
  end.

Definition collapse_blanks (s : str) : str := collapse_from false s.

Definition sanitize_filename (name : option str) : str :=
  if negb (truthy name) then lit "Unknown"
  else
    let sanitized := replace_invalid (or_else name []) in
    let sanitized := strip (collapse_blanks sanitized) in
    let sanitized :=
      if (100 <? List.length sanitized)%nat then strip (firstn 100 sanitized)
      else sanitized in
    if nonempty sanitized then sanitized else lit "Unknown".

(** ** Records of the query layer *)

Record chat : Type := {
  chat_id : Z;
  chat_identifier : option str;
  display_name : option str;
  chat_style : option Z;
  participants : option str
}.

Record message : Type := {
  message_id : Z;
  text : option str;
  message_date : option Z;
  is_from_me : option Z;
  associated_message_type : option Z;
  sender_id : option str
}.

Record attachment : Type := {
  attachment_id : Z;
  filename : option str;
  mime_type : option str;
  transfer_name : option str;
  total_bytes : option Z
}.

(** The read-only database connection, as the three queries see it.
    [get_messages_for_chat] returns the rows in the order of its
    [ORDER BY m.date ASC]. *)
Record connection : Type := {
  get_chats : list chat;
  get_messages_for_chat : Z -> list message;
  get_attachments_for_message : Z -> list attachment
}.

Definition get_chat_display_name (c : chat) : str :=
  if truthy (display_name c) then or_else (display_name c) []
  else if truthy (participants c) then or_else (participants c) []
  else if truthy (chat_identifier c) then or_else (chat_identifier c) []
  else lit "Chat " ++ str_of_int (chat_id c).

(** ** Reaction classifier *)

Definition reactions : list (Z * str) :=
  [ (2000, lit "Loved");
    (2001, lit "Liked");
    (2002, lit "Disliked");
    (2003, lit "Laughed at");
    (2004, lit "Emphasized");
    (2005, lit "Questioned");
    (3000, lit "Removed love from");
    (3001, lit "Removed like from");
    (3002, lit "Removed dislike from");
    (3003, lit "Removed laugh from");
    (3004, lit "Removed emphasis from");
    (3005, lit "Removed question from") ]%Z.

(** [d.get(k)] *)
Fixpoint dict_get (d : list (Z * str)) (k : Z) : option str :=
  match d with
  | [] => None
  | (k', v) :: r => if (k =? k')%Z then Some v else dict_get r k
  end.

Definition format_reaction (associated_message_type : option Z)
  : option str :=
  match associated_message_type with
  | None => None
  | Some code => dict_get reactions code
  end.

(** ** Attachment materialiser *)

(** The candidate tried at [counter]: [f"{base}_{counter}{ext}"] under
    [dest_dir]. *)
Definition numbered_path (dest_dir base ext : str) (counter : nat) : str :=
  os_path.join dest_dir (base ++ lit "_" ++ str_of_nat counter ++ ext).

(** The loop [while os.path.exists(dest_path)].  [fuel] bounds the number
    of tests of the loop condition; [None] tells it was too small. *)
Fixpoint free_path_loop (fuel : nat) (fs : os_path.filesystem)
    (dest_dir base ext : str) (counter : nat) (dest_path : str)
  : option str :=
  match fuel with
  | O => None
  | S fuel' =>
      if os_path.exists_ fs dest_path
      then free_path_loop fuel' fs dest_dir base ext (S counter)
             (numbered_path dest_dir base ext counter)
      else Some dest_path
  end.

(** [source_path], after the expansion of a leading tilde. *)
Definition source_path_of `{Host} (att : attachment) : str :=
  let source_path := or_else (filename att) [] in
  if startswith (lit "~") source_path then expanduser source_path
  else source_path.

(** [attachment["transfer_name"] or os.path.basename(source_path)] *)
Definition dest_name_of `{Host} (att : attachment) : str :=
  or_else (transfer_name att) (os_path.basename (source_path_of att)).

(** The path the collision handling settles on.  The loop is given two
    more tests than there are paths, which is always enough
    ([free_dest_path_spec]), so the result is never [None]. *)
Definition free_dest_path (fs : os_path.filesystem)
    (dest_dir dest_name : str) : option str :=
  let dest_path := os_path.join dest_dir dest_name in
  let (base, ext) := os_path.splitext dest_name in
  free_path_loop (2 + List.length fs) fs dest_dir base ext 1 dest_path.

(** Returns the base name of the copy, or [None], together with the
    file system after the call. *)
Definition copy_attachment_file `{Host} (fs : os_path.filesystem)
    (att : attachment) (dest_dir : str)
  : option str * os_path.filesystem :=
  if negb (truthy (filename att)) then (None, fs)
  else
    let source_path := source_path_of att in
    if negb (os_path.exists_ fs source_path) then (None, fs)
    else
      let dest_name := dest_name_of att in
      match free_dest_path fs dest_dir dest_name with
      | None => (None, fs)
      | Some dest_path =>
          match copy2 fs source_path dest_path with
          | Copied =>
              (Some (os_path.basename dest_path),
               os_path.create dest_path fs)
          | Failed created =>
              (None, if created then os_path.create dest_path fs else fs)
          end
      end.

(** ** Transcript assembler *)

Definition newline : N := 10.

(** What the export has done so far: the paths that exist, the
    transcripts written (path and content, latest first) and the three
    running totals. *)
Record export_state : Type := {
  fs : os_path.filesystem;
  transcripts : list (str * str);
  exported_chats : nat;
  total_messages : nat;
  total_attachments_copied : nat
}.

(** [for x in xs: s = body(s, x)], stopping at the first exception. *)
Fixpoint for_each {A S : Type} (body : S -> A -> result S) (xs : list A)
    (s : S) : result S :=
  match xs with
  | [] => Returns s
  | x :: r => s' <- body s x ;; for_each body r s'
  end.

(** The filter test of a conversation. *)
Definition filter_matches `{Host} (contact_filter : str) (c : chat)
  : bool :=
  let identifiers :=
    [ or_else (chat_identifier c) [];
      or_else (participants c) [];
      or_else (display_name c) [] ] in
  existsb (fun ident => contains (lower contact_filter) (lower ident))
    identifiers.

(** [dt.strftime(...) if dt else "Unknown date"] *)
Definition timestamp_label `{Host} (dt : option datetime) : str :=
  match dt with
  | Some d => strftime d
  | None => lit "Unknown date"
  end.

(** ["Me" if msg["is_from_me"] else (msg["sender_id"] or "Unknown")] *)
Definition sender_label (msg : message) : str :=
  if truthy_int (is_from_me msg) then lit "Me"
  else or_else (sender_id msg) (lit "Unknown").

(** The target description of a reaction line. *)
Definition target_text (msg : message) : str :=
  let target_text := or_else (text msg) (lit "a message") in
  if startswith [OBJECT_REPLACEMENT] target_text then lit "a message"
  else target_text.

Definition reaction_line (timestamp sender reaction target : str) : str :=
  lit "[" ++ timestamp ++ lit "] " ++ sender ++ lit " " ++ reaction
  ++ lit " " ++ target.

Definition message_line (timestamp sender content : str) : str :=
  lit "[" ++ timestamp ++ lit "] " ++ sender ++ lit ": " ++ content.

(** The body of [for att in attachments], on the file system, the notes
    and the count of copies. *)
Definition attachment_step `{Host} (att_dir : str)
    (acc : os_path.filesystem * list str * nat) (att : attachment)
  : os_path.filesystem * list str * nat :=
  let '(fs, attachment_notes, copied) := acc in
  let att_name := or_else (transfer_name att) (lit "file") in
  let fs := os_path.create att_dir fs in
  let (copied_name, fs) := copy_attachment_file fs att att_dir in
  if truthy copied_name
  then (fs,
        attachment_notes
        ++ [lit "<attachment: " ++ or_else copied_name [] ++ lit ">"],
        S copied)
  else (fs,
        attachment_notes
        ++ [lit "<attachment: " ++ att_name ++ lit " (not available)>"],
        copied).

(** The content parts of a regular message. *)
Definition message_parts (text : str) (attachment_notes : list str)
  : list str :=
  (if nonempty (strip text)
   then
     let clean_text := strip (replace OBJECT_REPLACEMENT [] text) in
     if nonempty clean_text then [clean_text] else []
   else [])
  ++ attachment_notes.

Definition has_parts (parts : list str) : bool :=
  match parts with
  | [] => false
  | _ :: _ => true
  end.

(** The parts as one content: alone, or joined by a line break and four
    spaces. *)
Definition content (parts : list str) : str :=
  if (1 <? List.length parts)%nat then join (newline :: lit "    ") parts
  else hd [] parts.

(** The body of [for msg in messages], on the state and the lines. *)
Definition message_step `{Host} (conn : connection) (att_dir : str)
    (acc : export_state * list str) (msg : message)
  : result (export_state * list str) :=
  let (st, lines) := acc in
  let total_messages := S (total_messages st) in
  dt <- apple_timestamp_to_datetime (message_date msg) ;;
  let timestamp := timestamp_label dt in
  let sender := sender_label msg in
  let reaction := format_reaction (associated_message_type msg) in
  if truthy reaction
  then
    Returns
      ({| fs := fs st; transcripts := transcripts st;
          exported_chats := exported_chats st;
          total_messages := total_messages;
          total_attachments_copied := total_attachments_copied st |},
       lines
       ++ [reaction_line timestamp sender (or_else reaction [])
             (target_text msg)])
  else
    let text := or_else (text msg) [] in
    let attachments := get_attachments_for_message conn (message_id msg) in
    let '(fs', attachment_notes, copied) :=
      fold_left (attachment_step att_dir) attachments
        (fs st, [], total_attachments_copied st) in
    let st' :=
      {| fs := fs'; transcripts := transcripts st;
         exported_chats := exported_chats st;
         total_messages := total_messages;
         total_attachments_copied := copied |} in
    let parts := message_parts text attachment_notes in
    if negb (has_parts parts) then Returns (st', lines)
    else
      Returns
        (st', lines ++ [message_line timestamp sender (content parts)]).

(** The five header lines of a transcript. *)
Definition header (c : chat) (chat_name : str) (messages : list message)
  : list str :=
  let is_group :=
    match chat_style c with
    | Some s => (s =? 43)%Z
    | None => false
    end in
  let chat_type :=
    if is_group then lit "Group Chat" else lit "Conversation" in
  [ repeat 61%N 60;
    chat_type ++ lit ": " ++ chat_name;
    repeat 61%N 60;
    lit "Messages: " ++ str_of_nat (List.length messages);
    [] ].

(** The body of [for chat in chats]. *)
Definition chat_step `{Host} (conn : connection) (readable_dir : str)
    (contact_filter : option str) (st : export_state) (c : chat)
  : result export_state :=
  let chat_name := get_chat_display_name c in
  if truthy contact_filter
     && negb (filter_matches (or_else contact_filter []) c)
  then Returns st
  else
    let messages := get_messages_for_chat conn (chat_id c) in
    match messages with
    | [] => Returns st
    | _ :: _ =>
        let safe_name := sanitize_filename (Some chat_name) in
        let chat_dir := os_path.join readable_dir safe_name in
        let att_dir := os_path.join chat_dir (lit "attachments") in
        let st :=
          {| fs := os_path.create chat_dir (fs st);
             transcripts := transcripts st;
             exported_chats := S (exported_chats st);
             total_messages := total_messages st;
             total_attachments_copied := total_attachments_copied st |} in
        r <- for_each (message_step conn att_dir) messages
               (st, header c chat_name messages) ;;
        let (st, lines) := r in
        let transcript_path := os_path.join chat_dir (lit "chat.txt") in
        Returns
          {| fs := os_path.create transcript_path (fs st);
             transcripts :=
               (transcript_path, join [newline] lines ++ [newline])
               :: transcripts st;
             exported_chats := exported_chats st;
             total_messages := total_messages st;
             total_attachments_copied := total_attachments_copied st |}
    end.

(** The export from the file system [fs0].  The three totals of the
    returned state are the values of the dictionary the function
    returns. *)
Definition do_readable_export `{Host} (conn : connection)
    (fs0 : os_path.filesystem) (dest_dir : str)
    (contact_filter : option str) : result export_state :=
  let readable_dir := os_path.join dest_dir (lit "readable") in
  for_each (chat_step conn readable_dir contact_filter) (get_chats conn)
    {| fs := os_path.create readable_dir fs0;
       transcripts := [];
       exported_chats := 0;
       total_messages := 0;
       total_attachments_copied := 0 |}.

(** ** Reference hosts: a zone at a fixed offset from UTC, the C locale,
       a macOS home directory *)

Module UTC.

(** A naive [datetime.datetime]. *)
Record datetime : Type := {
  year : Z; month : Z; day : Z;
  hour : Z; minute : Z; second : Z; microsecond : Z
}.

(** The order of naive datetimes: field by field. *)
Definition to_microseconds_key (d : datetime) : list Z :=
  [year d; month d; day d; hour d; minute d; second d; microsecond d].

Fixpoint lex_ltb (a b : list Z) : bool :=
  match a, b with
  | x :: a', y :: b' => (x <? y)%Z || (x =? y)%Z && lex_ltb a' b'
  | _, _ => false
  end.

Definition datetime_ltb (a b : datetime) : bool :=
  lex_ltb (to_microseconds_key a) (to_microseconds_key b).

(** The integer part of a finite float, towards zero. *)
Definition trunc (x : float) : Z :=
  match Prim2SF x with
  | S754_finite s m e =>
      let a := if (0 <=? e)%Z then (Zpos m * 2 ^ e)%Z
               else (Zpos m / 2 ^ (- e))%Z in
      if s then (- a)%Z else a
  | _ => 0%Z
  end.

(** The nearest integer of a finite float, ties to even. *)
Definition round_half_even (x : float) : Z :=
  match Prim2SF x with
  | S754_finite s m e =>
      let a :=
        if (0 <=? e)%Z then (Zpos m * 2 ^ e)%Z
        else
          let d := (2 ^ (- e))%Z in
          let q := (Zpos m / d)%Z in
          let r := (Zpos m mod d)%Z in
          if (2 * r <? d)%Z then q
          else if (d <? 2 * r)%Z then (q + 1)%Z
          else if Z.even q then q else (q + 1)%Z in
      if s then (- a)%Z else a
  | _ => 0%Z
  end.

(** The proleptic Gregorian date of a day count from 1970-01-01. *)
Definition civil_from_days (days : Z) : Z * Z * Z :=
  let z := (days + 719468)%Z in
  let era := (z / 146097)%Z in
  let doe := (z - era * 146097)%Z in
  let yoe := ((doe - doe / 1460 + doe / 36524 - doe / 146096) / 365)%Z in
  let y := (yoe + era * 400)%Z in
  let doy := (doe - (365 * yoe + yoe / 4 - yoe / 100))%Z in
  let mp := ((5 * doy + 2) / 153)%Z in
  let d := (doy - (153 * mp + 2) / 5 + 1)%Z in
  let m := if (mp <? 10)%Z then (mp + 3)%Z else (mp - 9)%Z in
  ((if (m <=? 2)%Z then y + 1 else y)%Z, m, d).

(** The day count from 1970-01-01 of a proleptic Gregorian date. *)
Definition days_from_civil (y m d : Z) : Z :=
  let y := if (m <=? 2)%Z then (y - 1)%Z else y in
  let era := (y / 400)%Z in
  let yoe := (y - era * 400)%Z in
  let mp := if (2 <? m)%Z then (m - 3)%Z else (m + 9)%Z in
  let doy := ((153 * mp + 2) / 5 + d - 1)%Z in
  let doe := (yoe * 365 + yoe / 4 - yoe / 100 + doy)%Z in
  (era * 146097 + doe - 719468)%Z.

(** [datetime.datetime(y, m, d)] *)
Definition datetime_ymd (y m d : Z) : datetime :=
  {| year := y; month := m; day := d;
     hour := 0; minute := 0; second := 0; microsecond := 0 |}.

(** [dt.timestamp()] of a naive datetime where local time is [utcoffset]
    seconds ahead of UTC: the seconds from the epoch of that local time,
    plus the microseconds. *)
Definition timestamp_in (utcoffset : Z) (dt : datetime) : float :=
  let s :=
    (days_from_civil (year dt) (month dt) (day dt) * 86400
     + hour dt * 3600 + minute dt * 60 + second dt - utcoffset)%Z in
  (float_of_int s + float_of_int (microsecond dt) / 1e6)%float.

(** The calendar stops at the years 1 and 9999. *)
Definition year_in_range (y : Z) : bool := (1 <=? y)%Z && (y <=? 9999)%Z.

(** [datetime.fromtimestamp] where local time is [utcoffset] seconds
    ahead of UTC.  The seconds are split from the fraction and the
    fraction is rounded to microseconds; seconds outside [time_t] raise
    an [OverflowError], a year that does not fit the [int] of the C
    library makes [localtime] fail with an [OSError], and a year outside
    the calendar raises a [ValueError], as does one at the local time a
    day earlier, which is computed to detect a repeated hour. *)
Definition fromtimestamp_in (utcoffset : Z) (x : float) : result datetime :=
  match Prim2SF x with
  | S754_nan => Raises ValueError
  | S754_infinity _ => Raises OverflowError
  | _ =>
      let intpart := trunc x in
      let floatpart := ((x - float_of_int intpart) * 1e6)%float in
      let us := round_half_even floatpart in
      let '(sec, us) :=
        if (1000000 <=? us)%Z then (intpart + 1, us - 1000000)%Z
        else if (us <? 0)%Z then (intpart - 1, us + 1000000)%Z
        else (intpart, us) in
      if negb ((- 2 ^ 63 <=? sec)%Z && (sec <? 2 ^ 63)%Z)
      then Raises OverflowError
      else
        let local := (sec + utcoffset)%Z in
        let '(y, m, d) := civil_from_days (local / 86400)%Z in
        let rem := (local mod 86400)%Z in
        let '(y_probe, _, _) := civil_from_days (local / 86400 - 1)%Z in
        if negb ((- 2 ^ 31 <=? y - 1900)%Z && (y - 1900 <? 2 ^ 31)%Z)
        then Raises OSError
        else if negb (year_in_range y) then Raises ValueError
        else if negb (year_in_range y_probe) then Raises ValueError
        else
          Returns
            {| year := y; month := m; day := d;
               hour := (rem / 3600)%Z;
               minute := (rem mod 3600 / 60)%Z;
               second := (rem mod 60)%Z;
               microsecond := us |}
  end.

(** With [TZ=UTC]. *)
Definition fromtimestamp : float -> result datetime := fromtimestamp_in 0.

(** A non-negative integer in at least [width] digits. *)
Definition zero_padded (width : nat) (n : Z) : str :=
  let digits := str_of_int n in
  repeat 48%N (width - List.length digits) ++ digits.

(** [dt.strftime("%Y-%m-%d %-I:%M %p")] *)
Definition strftime (d : datetime) : str :=
  let hour12 :=
    if (hour d mod 12 =? 0)%Z then 12%Z else (hour d mod 12)%Z in
  zero_padded 4 (year d) ++ lit "-" ++ zero_padded 2 (month d)
  ++ lit "-" ++ zero_padded 2 (day d) ++ lit " " ++ str_of_int hour12
  ++ lit ":" ++ zero_padded 2 (minute d) ++ lit " "
  ++ (if (hour d <? 12)%Z then lit "AM" else lit "PM").

(** [str.lower] on the ASCII letters; other characters are kept. *)
Definition lower (s : str) : str :=
  map (fun c => if (65 <=? c)%N && (c <=? 90)%N then (c + 32)%N else c) s.

Definition HOME : str := lit "/Users/me".

(** [os.path.expanduser] where only the current user is known. *)
Definition expanduser (p : str) : str :=
  match p with
  | 126%N :: r =>
      if negb (nonempty r) || startswith [os_path.sep] r then HOME ++ r
      else p
  | _ => p
  end.

(** The host whose local time is [utcoffset] seconds ahead of UTC, given
    how its copies end. *)
Definition host_in (utcoffset : Z)
    (copy2 : os_path.filesystem -> str -> str -> copy2_outcome) : Host :=
  @Build_Host datetime datetime_ymd (timestamp_in utcoffset)
    (fromtimestamp_in utcoffset) strftime lower expanduser copy2.

(** The host at UTC. *)
Definition host
    (copy2 : os_path.filesystem -> str -> str -> copy2_outcome) : Host :=
  host_in 0 copy2.

(** The host on which every copy completes. *)
Definition reliable : Host := host (fun _ _ _ => Copied).


(** The host on which every copy fails after it created its
    destination. *)
Definition interrupted : Host := host (fun _ _ _ => Failed true).

End UTC.

(** The same host in Japan: local time is nine hours ahead of UTC all
    year. *)
Module JST.

Definition utcoffset : Z := 32400.

Definition reliable : Host := UTC.host_in utcoffset (fun _ _ _ => Copied).

End JST.

(** ** Sample data *)

Module Example.

Definition number : str := lit "+15551234567".

Definition friend : chat :=
  {| chat_id := 1; chat_identifier := Some number; display_name := None;
     chat_style := Some 45%Z; participants := Some number |}.

(** A conversation without messages. *)
Definition silent : chat :=
  {| chat_id := 2; chat_identifier := Some (lit "+15550000000");
     display_name := None; chat_style := Some 45%Z;
     participants := Some (lit "+15550000000") |}.

Definition hello : message :=
  {| message_id := 1; text := Some (lit "hello");
     message_date := Some 700000000000000000%Z; is_from_me := Some 1%Z;
     associated_message_type := Some 0%Z; sender_id := None |}.

(** A "Liked" reaction stored without a body. *)
Definition liked : message :=
  {| message_id := 2; text := None;
     message_date := Some 700000060000000000%Z; is_from_me := Some 0%Z;
     associated_message_type := Some 2001%Z; sender_id := Some number |}.

(** A "Liked" reaction whose body quotes its target between U+201C and
    U+201D, as the application writes it. *)
Definition liked_quoting : message :=
  {| message_id := 7;
     text := Some (lit "Liked " ++ [8220%N] ++ lit "hello" ++ [8221%N]);
     message_date := Some 700000060000000000%Z; is_from_me := Some 0%Z;
     associated_message_type := Some 2001%Z; sender_id := Some number |}.

Definition photo_message : message :=
  {| message_id := 3; text := Some [OBJECT_REPLACEMENT];
     message_date := Some 700000120000000000%Z; is_from_me := Some 0%Z;
     associated_message_type := Some 0%Z; sender_id := Some number |}.

(** A message with nothing to show. *)
Definition blank : message :=
  {| message_id := 4; text := Some [OBJECT_REPLACEMENT; space];
     message_date := Some 700000180000000000%Z; is_from_me := Some 0%Z;
     associated_message_type := Some 0%Z; sender_id := Some number |}.

(** A message whose attachment is not on the disk. *)
Definition lost_message : message :=
  {| message_id := 5; text := None;
     message_date := Some 700000240000000000%Z; is_from_me := Some 0%Z;
     associated_message_type := Some 0%Z; sender_id := Some number |}.

(** A reaction whose body starts with the placeholder. *)
Definition loved_image : message :=
  {| message_id := 6;
     text := Some (OBJECT_REPLACEMENT :: lit "Loved an image");
     message_date := None; is_from_me := Some 1%Z;
     associated_message_type := Some 2000%Z; sender_id := None |}.

Definition photo : attachment :=
  {| attachment_id := 1;
     filename := Some (lit "~/Library/Messages/Attachments/ab/IMG_0001.jpg");
     mime_type := Some (lit "image/jpeg");
     transfer_name := Some (lit "IMG_0001.jpg");
     total_bytes := Some 1024%Z |}.


Definition lost : attachment :=
  {| attachment_id := 3;
     filename := Some (lit "~/Library/Messages/Attachments/ef/clip.mov");
     mime_type := Some (lit "video/quicktime");
     transfer_name := Some (lit "clip.mov");
     total_bytes := Some 4096%Z |}.

Definition unnamed : attachment :=
  {| attachment_id := 4; filename := None; mime_type := None;
     transfer_name := None; total_bytes := None |}.

Definition db : connection :=
  {| get_chats := [friend; silent];
     get_messages_for_chat :=
       fun id => if (id =? 1)%Z then [hello; liked; photo_message] else [];
     get_attachments_for_message :=
       fun id =>
         if (id =? 3)%Z then [photo]
         else if (id =? 5)%Z then [lost]
         else [] |}.

Definition disk : os_path.filesystem :=
  [ lit "/Users/me/Library/Messages/Attachments/ab/IMG_0001.jpg";
    lit "/Users/me/Library/Messages/Attachments/cd/IMG_0001.jpg" ].

Definition backup : str := lit "/Volumes/Backup".
Definition readable_dir : str := lit "/Volumes/Backup/readable".
Definition chat_txt : str :=
  lit "/Volumes/Backup/readable/+15551234567/chat.txt".
Definition att_dir : str :=
  lit "/Volumes/Backup/readable/+15551234567/attachments".

(** The disk once the first photo is copied. *)
Definition disk_with_photo : os_path.filesystem :=
  lit "/Volumes/Backup/readable/+15551234567/attachments/IMG_0001.jpg"
  :: disk.

Definition start : export_state :=
  {| fs := disk; transcripts := []; exported_chats := 0;
     total_messages := 0; total_attachments_copied := 0 |}.

Definition rule : str := repeat 61%N 60.

(** The transcript of [friend], line by line. *)
Definition transcript : list str :=
  [ rule; lit "Conversation: +15551234567"; rule; lit "Messages: 3"; [];
    lit "[2023-03-08 8:26 PM] Me: hello";
    lit "[2023-03-08 8:27 PM] +15551234567 Liked a message";
    lit "[2023-03-08 8:28 PM] +15551234567: <attachment: IMG_0001.jpg>" ].

End Example.

(** ** Predicates of the proofs *)


(** A character a sanitised name may hold: not refused, and a blank only
    when it is the space. *)
Definition plain_char (c : N) : bool :=
  negb (invalid_char c) && (negb (blank_char c) || (c =? space)%N).

Definition starts_blank (s : str) : bool :=
  match s with
  | [] => false
  | c :: _ => blank_char c
  end.

(** Plain characters only, and no two blanks in a row. *)
Fixpoint tidy (s : str) : bool :=
  match s with
  | [] => true
  | c :: r => plain_char c && negb (blank_char c && starts_blank r) && tidy r
  end.

(** Nothing to strip at either end. *)
Definition trimmed (s : str) : Prop := lstrip s = s /\ rstrip s = s.

(** What [sanitize_filename] returns: a non-empty tidy trimmed name of
    at most 100 characters. *)
Definition sanitized_name (r : str) : Prop :=
  tidy r = true /\ trimmed r /\ List.length r <= 100 /\ nonempty r = true.

(** A name without a path separator. *)
Definition plain_name (x : str) : Prop := existsb (N.eqb os_path.sep) x = false.

(** The state after a message that adds nothing to the file system. *)
Definition counted (st : export_state) : export_state :=
  {| fs := fs st; transcripts := transcripts st;
     exported_chats := exported_chats st;
     total_messages := S (total_messages st);
     total_attachments_copied := total_attachments_copied st |}.

(** ** Notions of the further properties *)

(** The timestamp of the message converts. *)
Definition converts `{Host} (msg : message) : bool :=
  match apple_timestamp_to_datetime (message_date msg) with
  | Returns _ => true
  | Raises _ => false
  end.

(** The chat loop gets past its two [continue]s for [c]. *)
Definition selected `{Host} (conn : connection) (contact_filter : option str)
    (c : chat) : bool :=
  negb (truthy contact_filter
        && negb (filter_matches (or_else contact_filter []) c))
  && match get_messages_for_chat conn (chat_id c) with
     | [] => false
     | _ :: _ => true
     end.

(** The messages of a conversation, as the query returns them. *)
Definition messages_of (conn : connection) (c : chat) : list message :=
  get_messages_for_chat conn (chat_id c).

(** The attachment records the message loop visits for [msg]: those of
    a message that is no reaction. *)
Definition visited_attachments (conn : connection) (msg : message) : nat :=
  if truthy (format_reaction (associated_message_type msg)) then 0
  else List.length (get_attachments_for_message conn (message_id msg)).

(** The conversations the export writes, in the order of the query. *)
Definition exported `{Host} (conn : connection) (contact_filter : option str)
  : list chat :=
  filter (selected conn contact_filter) (get_chats conn).

(** Where the transcript of [c] goes. *)
Definition transcript_path_of (readable_dir : str) (c : chat) : str :=
  os_path.join
    (os_path.join readable_dir
       (sanitize_filename (Some (get_chat_display_name c))))
    (lit "chat.txt").

Module Edge.

(** A message with a text and two attachments that are not on the
    disk. *)
Definition noted : message :=
  {| message_id := 8; text := Some (lit "see this");
     message_date := Some 700000300000000000%Z; is_from_me := Some 0%Z;
     associated_message_type := Some 0%Z;
     sender_id := Some Example.number |}.

Definition db : connection :=
  {| get_chats := [Example.friend];
     get_messages_for_chat := fun _ => [noted];
     get_attachments_for_message :=
       fun _ => [Example.lost; Example.unnamed] |}.

(** A record whose transfer name is an absolute path. *)
Definition stray : attachment :=
  {| attachment_id := 5;
     filename := Some (lit "~/Library/Messages/Attachments/ab/IMG_0001.jpg");
     mime_type := Some (lit "image/jpeg");
     transfer_name := Some (lit "/tmp/IMG_0001.jpg");
     total_bytes := Some 1024%Z |}.

End Edge.

(** * Properties *)

(** ** Timestamp normaliser *)



Section Timestamp.
Context `{Host}.


End Timestamp.

(** On the reference host: 2000 seconds and 700000000 seconds plus a
    fraction in nanoseconds after the Apple epoch. *)
Example apple_timestamp_seconds :
  @apple_timestamp_to_datetime UTC.reliable (Some 2000%Z)
  = Returns
      (Some {| UTC.year := 2001; UTC.month := 1; UTC.day := 1;
               UTC.hour := 0; UTC.minute := 33; UTC.second := 20;
               UTC.microsecond := 0 |}).
Proof. vm_compute. reflexivity. Qed.

Example apple_timestamp_nanoseconds :
  @apple_timestamp_to_datetime UTC.reliable (Some 700000000123456789%Z)
  = Returns
      (Some {| UTC.year := 2023; UTC.month := 3; UTC.day := 8;
               UTC.hour := 20; UTC.minute := 26; UTC.second := 40;
               UTC.microsecond := 123457 |}).
Proof. vm_compute. reflexivity. Qed.

(** A value of seconds large enough to leave the calendar raises. *)
Example apple_timestamp_out_of_range :
  @apple_timestamp_to_datetime UTC.reliable (Some (10 ^ 12)%Z)
  = Raises ValueError.
Proof. vm_compute. reflexivity. Qed.

(** The offset on the two reference hosts: the seconds from the Unix
    epoch to midnight of 1 January 2001 in local time. *)
Example apple_epoch_offset_utc :
  @APPLE_EPOCH_OFFSET UTC.reliable = 978307200%float.
Proof. vm_compute. reflexivity. Qed.




(** Claim C8: normalisation is a function of its input, and it is not
    monotonic: on the reference host the raw timestamp 10^11, which is
    not divided, normalises to a later date than the larger 10^12 + 1,
    which is divided by 1e9. *)
Theorem normalisation_deterministic_not_monotonic :
  (forall (H : Host) timestamp r1 r2,
      apple_timestamp_to_datetime timestamp = r1 ->
      apple_timestamp_to_datetime timestamp = r2 -> r1 = r2)
  /\ exists t1 t2 d1 d2,
       t1 <> 0%Z /\ t2 <> 0%Z /\ (t1 < t2)%Z
       /\ (t1 <= 10 ^ 12)%Z /\ (10 ^ 12 < t2)%Z
       /\ @apple_timestamp_to_datetime UTC.reliable (Some t1)
          = Returns (Some d1)
       /\ @apple_timestamp_to_datetime UTC.reliable (Some t2)
          = Returns (Some d2)
       /\ UTC.datetime_ltb d2 d1 = true.
Proof.
  split; [intros H timestamp r1 r2 <- <-; reflexivity|].
  exists (10 ^ 11)%Z, (10 ^ 12 + 1)%Z.
  eexists. eexists.
  split; [discriminate|]. split; [discriminate|].
  split; [reflexivity|]. split; [discriminate|]. split; [reflexivity|].
  split; [vm_compute; reflexivity|]. split; [vm_compute; reflexivity|].
  vm_compute. reflexivity.
Qed.

(** ** File-name sanitiser *)

Lemma isspace_blank c : isspace c = true -> blank_char c = true.
Proof. unfold blank_char. intros ->. apply orb_true_r. Qed.

Lemma tidy_cons c r :
  tidy (c :: r) = true ->
  plain_char c = true /\ (blank_char c = true -> starts_blank r = false)
  /\ tidy r = true.
Proof.
  simpl. rewrite !andb_true_iff, negb_true_iff, andb_false_iff.
  intros [[Hp Ha] Ht]. repeat split; auto.
  intros Hb. destruct Ha; congruence.
Qed.

Lemma tidy_app_l a b : tidy (a ++ b) = true -> tidy a = true.
Proof.
  induction a as [|c a IH]; [reflexivity|].
  rewrite <- app_comm_cons. intros Ht.
  apply tidy_cons in Ht. destruct Ht as (Hp & Ha & Ht).
  simpl. rewrite Hp, (IH Ht), andb_true_r. simpl.
  destruct (blank_char c) eqn:Hb; [|reflexivity].
  specialize (Ha eq_refl). destruct a; [reflexivity|]. simpl in *.
  now rewrite Ha.
Qed.

Lemma tidy_app_r a b : tidy (a ++ b) = true -> tidy b = true.
Proof.
  induction a as [|c a IH]; [trivial|].
  rewrite <- app_comm_cons. intros Ht. apply tidy_cons in Ht. tauto.
Qed.

Lemma lstrip_suffix s : exists x, s = x ++ lstrip s.
Proof.
  induction s as [|c r [x Hx]]; [now exists []|].
  simpl. destruct (isspace c).
  - exists (c :: x). simpl. now f_equal.
  - now exists [].
Qed.

Lemma rstrip_prefix s : exists x, s = rstrip s ++ x.
Proof.
  induction s as [|c r [x Hx]]; [now exists []|].
  simpl. destruct (rstrip r) as [|d r'] eqn:E.
  - destruct (isspace c).
    + now exists (c :: r).
    + exists x. simpl in *. now f_equal.
  - exists x. rewrite <- app_comm_cons. now f_equal.
Qed.

Lemma lstrip_length s : List.length (lstrip s) <= List.length s.
Proof.
  destruct (lstrip_suffix s) as [x Hx]. rewrite Hx at 2.
  rewrite length_app. lia.
Qed.

Lemma rstrip_length s : List.length (rstrip s) <= List.length s.
Proof.
  destruct (rstrip_prefix s) as [x Hx]. rewrite Hx at 2.
  rewrite length_app. lia.
Qed.

Lemma strip_length s : List.length (strip s) <= List.length s.
Proof.
  unfold strip. pose proof (rstrip_length (lstrip s)).
  pose proof (lstrip_length s). lia.
Qed.

Lemma tidy_strip s : tidy s = true -> tidy (strip s) = true.
Proof.
  intros Ht. unfold strip.
  destruct (lstrip_suffix s) as [x Hx]. rewrite Hx in Ht.
  apply tidy_app_r in Ht.
  destruct (rstrip_prefix (lstrip s)) as [y Hy]. rewrite Hy in Ht.
  now apply tidy_app_l in Ht.
Qed.

Lemma tidy_firstn n s : tidy s = true -> tidy (firstn n s) = true.
Proof.
  intros Ht. rewrite <- (firstn_skipn n s) in Ht. now apply tidy_app_l in Ht.
Qed.

(** [lstrip] leaves nothing to strip on the left. *)
Lemma lstrip_head s :
  match lstrip s with
  | [] => True
  | c :: _ => isspace c = false
  end.
Proof.
  induction s as [|c r IH]; simpl; [trivial|].
  destruct (isspace c) eqn:E; [exact IH|exact E].
Qed.

Lemma lstrip_fixed s :
  match s with
  | [] => True
  | c :: _ => isspace c = false
  end -> lstrip s = s.
Proof. destruct s as [|c r]; simpl; [trivial|]. now intros ->. Qed.

Lemma rstrip_idempotent s : rstrip (rstrip s) = rstrip s.
Proof.
  induction s as [|c r IH]; [reflexivity|].
  simpl. destruct (rstrip r) as [|d r'] eqn:E.
  - destruct (isspace c) eqn:Hc; simpl; [reflexivity|now rewrite Hc].
  - simpl in *. rewrite IH. reflexivity.
Qed.

Lemma rstrip_head c r :
  isspace c = false -> exists r', rstrip (c :: r) = c :: r'.
Proof.
  intros Hc. simpl. destruct (rstrip r) as [|d r'].
  - rewrite Hc. now exists [].
  - now exists (d :: r').
Qed.

Lemma strip_trimmed s : trimmed (strip s).
Proof.
  unfold trimmed, strip. split; [|apply rstrip_idempotent].
  pose proof (lstrip_head s) as Hh.
  destruct (lstrip s) as [|c r]; [reflexivity|].
  destruct (@rstrip_head c r Hh) as [r' ->].
  apply lstrip_fixed. exact Hh.
Qed.

Lemma trimmed_strip s : trimmed s -> strip s = s.
Proof. intros [Hl Hr]. unfold strip. now rewrite Hl. Qed.

Lemma replace_invalid_valid name :
  Forall (fun c => invalid_char c = false) (replace_invalid name).
Proof.
  unfold replace_invalid. apply Forall_map, Forall_forall. intros c _.
  destruct (invalid_char c) eqn:E; [reflexivity|exact E].
Qed.

Lemma collapse_from_tidy s :
  Forall (fun c => invalid_char c = false) s ->
  forall in_run,
    tidy (collapse_from in_run s) = true
    /\ (in_run = true -> starts_blank (collapse_from in_run s) = false).
Proof.
  induction 1 as [|c r Hc Hr IH]; intros in_run; [now split|].
  simpl. destruct (blank_char c) eqn:Hb.
  - destruct (IH true) as [Ht Hs]. destruct in_run.
    + split; [exact Ht|intros _; now apply Hs].
    + split; [|discriminate].
      simpl. rewrite Ht, (Hs eq_refl). reflexivity.
  - destruct (IH false) as [Ht _]. split.
    + simpl. rewrite Ht, Hb. unfold plain_char. now rewrite Hc, Hb.
    + intros _. simpl. exact Hb.
Qed.

Lemma replace_invalid_tidy s : tidy s = true -> replace_invalid s = s.
Proof.
  induction s as [|c r IH]; [reflexivity|].
  intros Ht. apply tidy_cons in Ht. destruct Ht as (Hp & _ & Ht).
  simpl. rewrite (IH Ht). unfold plain_char in Hp.
  apply andb_true_iff in Hp. destruct Hp as [Hp _].
  apply negb_true_iff in Hp. now rewrite Hp.
Qed.

Lemma collapse_from_tidy_id s :
  tidy s = true ->
  forall in_run, (in_run = true -> starts_blank s = false) ->
  collapse_from in_run s = s.
Proof.
  induction s as [|c r IH]; [reflexivity|].
  intros Ht in_run Hrun. apply tidy_cons in Ht. destruct Ht as (Hp & Ha & Ht).
  simpl. destruct (blank_char c) eqn:Hb.
  - destruct in_run; [specialize (Hrun eq_refl); simpl in Hrun; congruence|].
    unfold plain_char in Hp. rewrite Hb in Hp. simpl in Hp.
    apply andb_true_iff in Hp. destruct Hp as [_ Hp].
    apply N.eqb_eq in Hp. subst c.
    rewrite (IH Ht true); auto.
  - rewrite (IH Ht false); [reflexivity|discriminate].
Qed.

Lemma sanitized_name_unknown : sanitized_name (lit "Unknown").
Proof. repeat split; simpl; lia. Qed.

Lemma sanitize_filename_sanitized name :
  sanitized_name (sanitize_filename name).
Proof.
  unfold sanitize_filename.
  destruct (truthy name); simpl negb; cbv iota; [|apply sanitized_name_unknown].
  set (s2 := strip (collapse_blanks (replace_invalid (or_else name [])))).
  assert (Ht2 : tidy s2 = true).
  { apply tidy_strip.
    apply (@collapse_from_tidy _ (replace_invalid_valid _) false). }
  cbv zeta.
  set (s3 := if (100 <? List.length s2)%nat then strip (firstn 100 s2) else s2).
  assert (H3 : tidy s3 = true /\ trimmed s3 /\ List.length s3 <= 100).
  { subst s3. destruct (Nat.ltb_spec 100 (List.length s2)).
    - repeat split; try apply strip_trimmed.
      + now apply tidy_strip, tidy_firstn.
      + pose proof (strip_length (firstn 100 s2)).
        pose proof (firstn_le_length 100 s2). lia.
    - repeat split; try apply strip_trimmed; auto. }
  destruct (nonempty s3) eqn:E; [|apply sanitized_name_unknown].
  unfold sanitized_name. tauto.
Qed.

Lemma sanitize_filename_fixed r :
  sanitized_name r -> sanitize_filename (Some r) = r.
Proof.
  intros (Ht & Htr & Hlen & Hne). unfold sanitize_filename.
  simpl truthy. rewrite Hne. simpl negb. cbv iota.
  replace (or_else (Some r) []) with r by (now destruct r).
  rewrite (@replace_invalid_tidy _ Ht). unfold collapse_blanks.
  rewrite (@collapse_from_tidy_id _ Ht false) by discriminate.
  rewrite (@trimmed_strip _ Htr). cbv zeta.
  destruct (Nat.ltb_spec 100 (List.length r)); [lia|].
  now rewrite Hne.
Qed.

(** Claim C9: the sanitiser is idempotent. *)
Theorem sanitize_filename_idempotent (x : option str) :
  sanitize_filename (Some (sanitize_filename x)) = sanitize_filename x.
Proof. apply sanitize_filename_fixed, sanitize_filename_sanitized. Qed.

Example sanitize_filename_sample :
  sanitize_filename (Some (lit "  Ann<3>__Bob  :/ ")) = lit "Ann 3 Bob"
  /\ sanitize_filename (Some (lit "Ann 3 Bob")) = lit "Ann 3 Bob"
  /\ sanitize_filename (Some (lit "__")) = lit "Unknown"
  /\ sanitize_filename None = lit "Unknown".
Proof. repeat split. Qed.

(** ** Attachment materialiser *)

Lemma lit_inj a b : lit a = lit b -> a = b.
Proof.
  unfold lit. intros E.
  rewrite <- (string_of_list_ascii_of_string a),
    <- (string_of_list_ascii_of_string b).
  f_equal. revert E.
  generalize (list_ascii_of_string a) (list_ascii_of_string b).
  induction l as [|x l IH]; intros [|y l']; simpl; try discriminate;
    [reflexivity|].
  intros E. injection E as E1 E2. f_equal; [|now apply IH].
  rewrite <- (ascii_N_embedding x), <- (ascii_N_embedding y). now f_equal.
Qed.

Lemma str_of_nat_inj n m : str_of_nat n = str_of_nat m -> n = m.
Proof.
  unfold str_of_nat. intros E. apply lit_inj in E.
  apply (f_equal NilEmpty.uint_of_string) in E. rewrite !NilEmpty.usu in E.
  injection E as E. apply (f_equal Nat.of_uint) in E.
  now rewrite !Unsigned.of_to in E.
Qed.

Lemma exists_In fs p : os_path.exists_ fs p = true <-> In p fs.
Proof.
  unfold os_path.exists_. rewrite existsb_exists. unfold str_eqb. split.
  - intros (x & Hx & E).
    destruct (list_eq_dec N.eq_dec p x); [now subst|discriminate].
  - intros Hp. exists p. split; [exact Hp|].
    destruct (list_eq_dec N.eq_dec p p); congruence.
Qed.

Lemma exists_create fs p q :
  os_path.exists_ (os_path.create p fs) q = true
  <-> q = p \/ os_path.exists_ fs q = true.
Proof.
  unfold os_path.create. destruct (os_path.exists_ fs p) eqn:E.
  - split; [now right|]. intros [->|Hq]; assumption.
  - rewrite !exists_In. simpl. intuition congruence.
Qed.

Lemma join_inj d x y :
  startswith [os_path.sep] x = startswith [os_path.sep] y ->
  os_path.join d x = os_path.join d y -> x = y.
Proof.
  unfold os_path.join. intros ->.
  destruct (startswith [os_path.sep] y); [trivial|].
  destruct (negb (nonempty d) || endswith [os_path.sep] d); intros E.
  - now apply app_inv_head in E.
  - now apply app_inv_head in E; injection E.
Qed.

Lemma startswith_sep_numbered b e n m :
  startswith [os_path.sep] (b ++ lit "_" ++ str_of_nat n ++ e)
  = startswith [os_path.sep] (b ++ lit "_" ++ str_of_nat m ++ e).
Proof. destruct b; reflexivity. Qed.

Lemma numbered_path_inj d b e : Injective (numbered_path d b e).
Proof.
  intros n m E. unfold numbered_path in E.
  apply join_inj in E; [|apply startswith_sep_numbered].
  apply app_inv_head in E. apply app_inv_head in E.
  apply app_inv_tail in E. now apply str_of_nat_inj.
Qed.



Lemma forallb_false_exists (A : Type) (f : A -> bool) l :
  forallb f l = false -> exists x, In x l /\ f x = false.
Proof.
  induction l as [|a l IH]; [discriminate|]. simpl.
  destruct (f a) eqn:E; simpl.
  - intros H. destruct (IH H) as (x & Hx & Hf). exists x. auto.
  - intros _. exists a. auto.
Qed.

(** Among the first [n + 1] numbered paths, one is free in a file system
    of [n] paths. *)
Lemma some_numbered_path_free fs d b e :
  exists k, 1 <= k <= S (List.length fs)
            /\ os_path.exists_ fs (numbered_path d b e k) = false.
Proof.
  set (f := fun k => os_path.exists_ fs (numbered_path d b e k)).
  destruct (forallb f (seq 1 (S (List.length fs)))) eqn:E.
  - exfalso. rewrite forallb_forall in E.
    assert (Hincl : incl (map (numbered_path d b e)
                            (seq 1 (S (List.length fs)))) fs).
    { intros p Hp. apply in_map_iff in Hp. destruct Hp as (k & <- & Hk).
      apply exists_In. now apply E. }
    apply NoDup_incl_length in Hincl.
    + rewrite length_map, length_seq in Hincl. lia.
    + apply Injective_map_NoDup; [apply numbered_path_inj|apply seq_NoDup].
  - apply forallb_false_exists in E. destruct E as (k & Hk & Hf).
    apply in_seq in Hk. exists k. split; [lia|exact Hf].
Qed.

Lemma least_false (f : nat -> bool) m :
  (exists k, k < m /\ f k = false) ->
  exists n, n < m /\ f n = false /\ forall k, k < n -> f k = true.
Proof.
  induction m as [|m IH]; intros (k & Hk & Hf); [lia|].
  destruct (forallb f (seq 0 m)) eqn:E.
  - rewrite forallb_forall in E.
    assert (k = m).
    { destruct (Nat.eq_dec k m); [assumption|].
      assert (f k = true) by (apply E, in_seq; lia). congruence. }
    subst k. exists m. repeat split; [lia|assumption|].
    intros j Hj. apply E, in_seq. lia.
  - apply forallb_false_exists in E. destruct E as (j & Hj & Hfj).
    apply in_seq in Hj. destruct IH as (n & Hn & Hfn & Hmin).
    + exists j. split; [lia|assumption].
    + exists n. repeat split; [lia|assumption|assumption].
Qed.

Lemma least_numbered_path_free fs d b e :
  exists n, 1 <= n <= S (List.length fs)
    /\ os_path.exists_ fs (numbered_path d b e n) = false
    /\ forall k, 1 <= k < n ->
         os_path.exists_ fs (numbered_path d b e k) = true.
Proof.
  destruct (some_numbered_path_free fs d b e) as (k & Hk & Hf).
  destruct (@least_false
              (fun i => os_path.exists_ fs (numbered_path d b e (S i)))
              (S (List.length fs))) as (n & Hn & Hfn & Hmin).
  - exists (k - 1). split; [lia|]. now replace (S (k - 1)) with k by lia.
  - exists (S n). repeat split; [lia|lia|assumption|].
    intros j Hj. replace j with (S (j - 1)) by lia. apply Hmin. lia.
Qed.

(** The loop, once it tests the numbered path [c], stops at the first
    free numbered path from [c] on. *)
Lemma free_path_loop_numbered fs d b e j :
  forall c fuel,
    j < fuel ->
    (forall i, c <= i < c + j ->
       os_path.exists_ fs (numbered_path d b e i) = true) ->
    os_path.exists_ fs (numbered_path d b e (c + j)) = false ->
    free_path_loop fuel fs d b e (S c) (numbered_path d b e c)
    = Some (numbered_path d b e (c + j)).
Proof.
  induction j as [|j IH]; intros c [|fuel] Hfuel Htaken Hfree; try lia; simpl.
  - rewrite Nat.add_0_r in Hfree. rewrite Hfree. now rewrite Nat.add_0_r.
  - rewrite Htaken by lia. rewrite (IH (S c)).
    + f_equal. f_equal. lia.
    + lia.
    + intros i Hi. apply Htaken. lia.
    + now replace (S c + j) with (c + S j) by lia.
Qed.

Lemma free_path_loop_first fs d b e dest_path fuel :
  os_path.exists_ fs dest_path = false -> 0 < fuel ->
  free_path_loop fuel fs d b e 1 dest_path = Some dest_path.
Proof. intros Hf Hfuel. destruct fuel; [lia|]. simpl. now rewrite Hf. Qed.

Lemma free_path_loop_renamed fs d b e dest_path n fuel :
  os_path.exists_ fs dest_path = true ->
  1 <= n ->
  os_path.exists_ fs (numbered_path d b e n) = false ->
  (forall k, 1 <= k < n -> os_path.exists_ fs (numbered_path d b e k) = true) ->
  n < fuel ->
  free_path_loop fuel fs d b e 1 dest_path = Some (numbered_path d b e n).
Proof.
  intros Ht Hn Hfree Htaken Hfuel. destruct fuel; [lia|]. simpl. rewrite Ht.
  replace n with (1 + (n - 1)) by lia.
  apply free_path_loop_numbered; try lia.
  - intros i Hi. apply Htaken. lia.
  - now replace (1 + (n - 1)) with n by lia.
Qed.

(** Claim C10: in a file system of finitely many paths there is a least
    counter whose numbered name is free, and the renaming loop returns a
    free path after at most two more tests than there are paths, whatever
    larger bound it is given. *)
Theorem collision_loop_terminates (fs : os_path.filesystem)
    (dest_dir dest_name : str) :
  let base := fst (os_path.splitext dest_name) in
  let ext := snd (os_path.splitext dest_name) in
  (exists n, 1 <= n
     /\ os_path.exists_ fs (numbered_path dest_dir base ext n) = false
     /\ forall k, 1 <= k < n ->
          os_path.exists_ fs (numbered_path dest_dir base ext k) = true)
  /\ (exists tests dest_path,
        tests <= 2 + List.length fs
        /\ os_path.exists_ fs dest_path = false
        /\ (forall fuel, tests <= fuel ->
              free_path_loop fuel fs dest_dir base ext 1
                (os_path.join dest_dir dest_name) = Some dest_path)
        /\ free_dest_path fs dest_dir dest_name = Some dest_path).
Proof.
  intros base ext.
  destruct (least_numbered_path_free fs dest_dir base ext)
    as (n & Hn & Hfree & Htaken).
  split; [exists n; repeat split; [lia|assumption|assumption]|].
  assert (Hfd : free_dest_path fs dest_dir dest_name
                = free_path_loop (2 + List.length fs) fs dest_dir base ext 1
                    (os_path.join dest_dir dest_name)).
  { unfold free_dest_path, base, ext.
    now destruct (os_path.splitext dest_name). }
  destruct (os_path.exists_ fs (os_path.join dest_dir dest_name)) eqn:E.
  - exists (S n), (numbered_path dest_dir base ext n).
    split; [lia|]. split; [assumption|]. split.
    + intros fuel Hfuel. apply free_path_loop_renamed; auto; lia.
    + rewrite Hfd. apply free_path_loop_renamed; auto; lia.
  - exists 1, (os_path.join dest_dir dest_name).
    split; [lia|]. split; [assumption|]. split.
    + intros fuel Hfuel. apply free_path_loop_first; auto.
    + rewrite Hfd. apply free_path_loop_first; auto. lia.
Qed.

Lemma splitext_app p :
  fst (os_path.splitext p) ++ snd (os_path.splitext p) = p.
Proof.
  unfold os_path.splitext.
  destruct (os_path.rfind os_path.sep p <? os_path.rfind os_path.extsep p)%Z;
    [|apply app_nil_r].
  destruct (existsb _ _); [apply firstn_skipn|apply app_nil_r].
Qed.

Lemma free_dest_path_unfold fs dest_dir dest_name :
  free_dest_path fs dest_dir dest_name
  = free_path_loop (2 + List.length fs) fs dest_dir
      (fst (os_path.splitext dest_name)) (snd (os_path.splitext dest_name)) 1
      (os_path.join dest_dir dest_name).
Proof. unfold free_dest_path. now destruct (os_path.splitext dest_name). Qed.

Lemma basename_plain x : plain_name x -> os_path.basename x = x.
Proof.
  unfold plain_name. destruct x as [|c r]; [reflexivity|].
  cbn [existsb os_path.basename].
  intros E. apply orb_false_iff in E. destruct E as [Hc Hr].
  rewrite Hr. rewrite N.eqb_sym in Hc. now rewrite Hc.
Qed.

Lemma basename_after_sep p x :
  plain_name x -> os_path.basename (p ++ os_path.sep :: x) = x.
Proof.
  unfold plain_name. intros Hx. induction p as [|c p IH].
  - cbn [app os_path.basename]. rewrite Hx. now rewrite N.eqb_refl.
  - rewrite <- app_comm_cons. cbn [os_path.basename].
    rewrite existsb_app. cbn [existsb]. rewrite N.eqb_refl.
    cbn [orb]. rewrite orb_true_r. exact IH.
Qed.

Lemma endswith_sep d :
  endswith [os_path.sep] d = true -> exists d', d = d' ++ [os_path.sep].
Proof.
  unfold endswith. cbn [rev app]. intros E. exists (rev (tl (rev d))).
  rewrite <- (rev_involutive d) at 1.
  destruct (rev d) as [|c r]; [discriminate|]. cbn [startswith] in E.
  apply andb_true_iff in E. destruct E as [E _]. apply N.eqb_eq in E.
  now subst c.
Qed.

Lemma basename_join d x :
  plain_name x -> os_path.basename (os_path.join d x) = x.
Proof.
  intros Hx. unfold os_path.join.
  assert (Hs : startswith [os_path.sep] x = false).
  { destruct x as [|c r]; [reflexivity|]. unfold plain_name in Hx.
    cbn [existsb startswith] in *.
    apply orb_false_iff in Hx. destruct Hx as [-> _]. reflexivity. }
  rewrite Hs. destruct (nonempty d) eqn:Hd; simpl negb; simpl orb.
  - destruct (endswith [os_path.sep] d) eqn:He.
    + destruct (endswith_sep _ He) as [d' ->]. rewrite <- app_assoc.
      now apply basename_after_sep.
    + now apply basename_after_sep.
  - destruct d; [|discriminate]. now apply basename_plain.
Qed.

Lemma plain_str_of_nat n : plain_name (str_of_nat n).
Proof.
  unfold plain_name, str_of_nat. generalize (Nat.to_uint n).
  induction u; simpl; auto.
Qed.

Lemma plain_numbered base ext n :
  plain_name (base ++ ext) ->
  plain_name (base ++ lit "_" ++ str_of_nat n ++ ext).
Proof.
  unfold plain_name. rewrite !existsb_app, !orb_false_iff.
  intros [Hb He]. repeat split; auto. apply plain_str_of_nat.
Qed.

(** What the collision handling settles on: the preferred path when it
    is free, and otherwise the first free numbered path. *)
Lemma free_dest_path_spec fs dest_dir dest_name :
  let base := fst (os_path.splitext dest_name) in
  let ext := snd (os_path.splitext dest_name) in
  (os_path.exists_ fs (os_path.join dest_dir dest_name) = false
   /\ free_dest_path fs dest_dir dest_name
      = Some (os_path.join dest_dir dest_name))
  \/ (os_path.exists_ fs (os_path.join dest_dir dest_name) = true
      /\ exists n, 1 <= n <= S (List.length fs)
           /\ os_path.exists_ fs (numbered_path dest_dir base ext n) = false
           /\ (forall k, 1 <= k < n ->
                 os_path.exists_ fs (numbered_path dest_dir base ext k) = true)
           /\ free_dest_path fs dest_dir dest_name
              = Some (numbered_path dest_dir base ext n)).
Proof.
  intros base ext. rewrite free_dest_path_unfold. fold base ext.
  destruct (os_path.exists_ fs (os_path.join dest_dir dest_name)) eqn:E.
  - right. split; [reflexivity|].
    destruct (least_numbered_path_free fs dest_dir base ext)
      as (n & Hn & Hfree & Hmin).
    exists n. repeat split; auto; try lia.
    apply free_path_loop_renamed; auto; lia.
  - left. split; [reflexivity|]. apply free_path_loop_first; auto. lia.
Qed.

Section Materialiser.
Context `{Host}.



End Materialiser.

(** ** Transcript assembler *)

Lemma format_reaction_nonempty code reaction :
  format_reaction code = Some reaction -> nonempty reaction = true.
Proof.
  destruct code as [z|]; [|discriminate]. unfold format_reaction, reactions.
  cbn [dict_get].
  repeat (match goal with
          | |- context [(z =? ?k)%Z] => destruct (z =? k)%Z
          end; [intros E; injection E as <-; reflexivity|]).
  discriminate.
Qed.

Lemma rstrip_nil_blank s : rstrip s = [] -> forallb isspace s = true.
Proof.
  induction s as [|c r IH]; [reflexivity|]. cbn [rstrip forallb].
  destruct (rstrip r); [|discriminate].
  destruct (isspace c); [|discriminate]. intros _. now apply IH.
Qed.

Lemma lstrip_blank s :
  forallb isspace (lstrip s) = true -> forallb isspace s = true.
Proof.
  induction s as [|c r IH]; [reflexivity|]. cbn [lstrip].
  destruct (isspace c) eqn:E; [|trivial].
  intros Hr. cbn [forallb]. rewrite E. now apply IH.
Qed.

Lemma strip_nil_blank s : strip s = [] -> forallb isspace s = true.
Proof. intros E. now apply lstrip_blank, rstrip_nil_blank. Qed.

Lemma replace_blank s :
  forallb isspace s = true -> replace OBJECT_REPLACEMENT [] s = s.
Proof.
  induction s as [|c r IH]; [reflexivity|]. cbn [forallb].
  intros E. apply andb_true_iff in E. destruct E as [Hc Hr].
  unfold replace in *. cbn [flat_map]. rewrite (IH Hr).
  destruct (N.eqb_spec c OBJECT_REPLACEMENT) as [->|_];
    [discriminate|reflexivity].
Qed.

Lemma clean_text_nonempty body :
  nonempty (strip (replace OBJECT_REPLACEMENT [] body)) = true ->
  nonempty (strip body) = true.
Proof.
  intros Hclean. destruct (strip body) eqn:E; [|reflexivity].
  pose proof (strip_nil_blank _ E) as Hb.
  rewrite (replace_blank _ Hb), E in Hclean. exact Hclean.
Qed.

Lemma startswith_spec p s :
  startswith p s = true <-> exists post, s = p ++ post.
Proof.
  revert s. induction p as [|a p IH]; intros s.
  - split; [intros _; now exists s|reflexivity].
  - destruct s as [|b s]; cbn [startswith].
    + split; [discriminate|]. intros [post E]. discriminate.
    + rewrite andb_true_iff, N.eqb_eq, IH. split.
      * intros [-> [post ->]]. now exists post.
      * intros [post E]. injection E as -> ->.
        split; [reflexivity|now exists post].
Qed.

Lemma contains_spec needle hay :
  contains needle hay = true <-> exists pre post, hay = pre ++ needle ++ post.
Proof.
  induction hay as [|c hay IH].
  - cbn [contains]. rewrite orb_false_r, startswith_spec. split.
    + intros [post E]. now exists [], post.
    + intros (pre & post & E). destruct pre; [now exists post|discriminate].
  - cbn [contains]. rewrite orb_true_iff, startswith_spec, IH. split.
    + intros [[post E] | (pre & post & E)].
      * now exists [], post.
      * exists (c :: pre), post. now rewrite E.
    + intros (pre & post & E). destruct pre as [|x pre].
      * left. now exists post.
      * right. injection E as _ E. now exists pre, post.
Qed.

Section Assembler.
Context `{Host}.

Lemma message_step_reaction conn att_dir st lines msg dt reaction :
  apple_timestamp_to_datetime (message_date msg) = Returns dt ->
  format_reaction (associated_message_type msg) = Some reaction ->
  message_step conn att_dir (st, lines) msg
  = Returns (counted st,
             lines ++ [reaction_line (timestamp_label dt) (sender_label msg)
                         reaction (target_text msg)]).
Proof.
  intros Hdt Hreact. pose proof (format_reaction_nonempty _ Hreact) as Hne.
  unfold message_step. rewrite Hdt, Hreact. cbn [bind truthy]. rewrite Hne.
  destruct reaction; [discriminate|]. reflexivity.
Qed.

Lemma message_step_text conn att_dir st lines msg dt body :
  apple_timestamp_to_datetime (message_date msg) = Returns dt ->
  format_reaction (associated_message_type msg) = None ->
  get_attachments_for_message conn (message_id msg) = [] ->
  text msg = Some body ->
  nonempty (strip (replace OBJECT_REPLACEMENT [] body)) = true ->
  message_step conn att_dir (st, lines) msg
  = Returns (counted st,
             lines ++ [message_line (timestamp_label dt) (sender_label msg)
                         (strip (replace OBJECT_REPLACEMENT [] body))]).
Proof.
  intros Hdt Hreact Hatt Hbody Hclean. unfold message_step.
  rewrite Hdt, Hreact, Hatt, Hbody. cbn [bind truthy fold_left].
  assert (Hor : or_else (Some body) [] = body) by (now destruct body).
  rewrite Hor. unfold message_parts.
  rewrite (clean_text_nonempty _ Hclean), Hclean. reflexivity.
Qed.

Lemma attachment_step_notes att_dir fs0 notes n att :
  exists fs' note n',
    attachment_step att_dir (fs0, notes, n) att = (fs', notes ++ [note], n').
Proof.
  unfold attachment_step.
  destruct (copy_attachment_file _ att att_dir) as [copied fs'].
  destruct (truthy copied); eauto.
Qed.

Lemma fold_attachment_notes att_dir atts :
  forall fs0 notes n,
  exists fs' extra n',
    fold_left (attachment_step att_dir) atts (fs0, notes, n)
    = (fs', notes ++ extra, n')
    /\ List.length extra = List.length atts.
Proof.
  induction atts as [|att atts IH]; intros fs0 notes n.
  - exists fs0, [], n. now rewrite app_nil_r.
  - cbn [fold_left].
    destruct (attachment_step_notes att_dir fs0 notes n att)
      as (fs1 & note & n1 & ->).
    destruct (IH fs1 (notes ++ [note]) n1) as (fs' & extra & n' & -> & Hlen).
    exists fs', (note :: extra), n'. rewrite <- app_assoc.
    split; [reflexivity|].
    simpl. now rewrite Hlen.
Qed.

Lemma message_step_attachments_only conn att_dir st lines msg dt :
  apple_timestamp_to_datetime (message_date msg) = Returns dt ->
  format_reaction (associated_message_type msg) = None ->
  strip (replace OBJECT_REPLACEMENT [] (or_else (text msg) [])) = [] ->
  get_attachments_for_message conn (message_id msg) <> [] ->
  exists fs' notes copied,
    fold_left (attachment_step att_dir)
      (get_attachments_for_message conn (message_id msg))
      (fs st, [], total_attachments_copied st) = (fs', notes, copied)
    /\ List.length notes
       = List.length (get_attachments_for_message conn (message_id msg))
    /\ message_step conn att_dir (st, lines) msg
       = Returns ({| fs := fs'; transcripts := transcripts st;
                     exported_chats := exported_chats st;
                     total_messages := S (total_messages st);
                     total_attachments_copied := copied |},
                  lines ++ [message_line (timestamp_label dt) (sender_label msg)
                              (content notes)]).
Proof.
  intros Hdt Hreact Hbody Hatts. unfold message_step.
  rewrite Hdt, Hreact. cbn [bind truthy].
  destruct (fold_attachment_notes att_dir
              (get_attachments_for_message conn (message_id msg))
              (fs st) [] (total_attachments_copied st))
    as (fs' & notes & copied & Hfold & Hlen).
  cbn [app] in Hfold. rewrite Hfold.
  exists fs', notes, copied. split; [reflexivity|]. split; [exact Hlen|].
  assert (Hparts : message_parts (or_else (text msg) []) notes = notes).
  { unfold message_parts. rewrite Hbody. now destruct (nonempty (strip _)). }
  rewrite Hparts.
  destruct notes as [|note notes].
  - destruct (get_attachments_for_message conn (message_id msg));
      [contradiction|discriminate].
  - reflexivity.
Qed.

(** Claim C4: a message that is no reaction, has no attachment, and
    whose body is null or empty once the placeholder and the white space
    are removed, adds no line, and the message counter still goes up by
    one. *)
Theorem empty_message_suppressed conn att_dir st lines msg dt :
  apple_timestamp_to_datetime (message_date msg) = Returns dt ->
  format_reaction (associated_message_type msg) = None ->
  get_attachments_for_message conn (message_id msg) = [] ->
  text msg = None
  \/ strip (replace OBJECT_REPLACEMENT [] (or_else (text msg) [])) = [] ->
  message_step conn att_dir (st, lines) msg = Returns (counted st, lines).
Proof.
  intros Hdt Hreact Hatt Hbody. unfold message_step.
  rewrite Hdt, Hreact, Hatt. cbn [bind truthy fold_left].
  assert (Hparts : message_parts (or_else (text msg) []) [] = []).
  { unfold message_parts. rewrite app_nil_r.
    destruct Hbody as [-> | ->]; [reflexivity|].
    now destruct (nonempty (strip _)). }
  rewrite Hparts. reflexivity.
Qed.

(** Claim C2, amended: the line of a reaction ends with its target
    description, which is "a message" when the body text is absent,
    empty, or starts with the object-replacement placeholder, and the
    body text itself otherwise. *)
Theorem reaction_target_description conn att_dir st lines msg dt reaction :
  apple_timestamp_to_datetime (message_date msg) = Returns dt ->
  format_reaction (associated_message_type msg) = Some reaction ->
  message_step conn att_dir (st, lines) msg
  = Returns (counted st,
             lines ++ [reaction_line (timestamp_label dt) (sender_label msg)
                         reaction (target_text msg)])
  /\ (text msg = None \/ text msg = Some []
      \/ (exists rest, text msg = Some (OBJECT_REPLACEMENT :: rest)) ->
      target_text msg = lit "a message")
  /\ (forall body, text msg = Some body -> body <> [] ->
        startswith [OBJECT_REPLACEMENT] body = false ->
        target_text msg = body).
Proof.
  intros Hdt Hreact. split; [|split].
  - now apply message_step_reaction.
  - unfold target_text. intros [-> | [-> | [rest ->]]]; reflexivity.
  - intros body Hbody Hnonempty Hstart. unfold target_text. rewrite Hbody.
    destruct body as [|c r]; [congruence|]. cbn [or_else]. now rewrite Hstart.
Qed.






Lemma message_step_exported_chats conn att_dir st lines msg st' lines' :
  message_step conn att_dir (st, lines) msg = Returns (st', lines') ->
  exported_chats st' = exported_chats st.
Proof.
  unfold message_step.
  destruct (apple_timestamp_to_datetime (message_date msg)) as [dt|];
    [|discriminate].
  cbn [bind]. destruct (truthy _).
  - intros E. injection E as <- _. reflexivity.
  - destruct (fold_left _ _ _) as [[fs' notes] n].
    destruct (negb _); intros E; injection E as <- _; reflexivity.
Qed.

Lemma for_each_exported_chats conn att_dir msgs :
  forall st lines st' lines',
    for_each (message_step conn att_dir) msgs (st, lines)
    = Returns (st', lines') ->
    exported_chats st' = exported_chats st.
Proof.
  induction msgs as [|m msgs IH]; intros st lines st' lines'; cbn [for_each].
  - intros E. now injection E as <- _.
  - destruct (message_step conn att_dir (st, lines) m)
      as [[st1 lines1]|] eqn:E1;
      [|discriminate].
    cbn [bind]. intros E. apply IH in E.
    apply message_step_exported_chats in E1. congruence.
Qed.

Lemma chat_step_unfiltered_counts conn readable_dir st c st' :
  get_messages_for_chat conn (chat_id c) <> [] ->
  chat_step conn readable_dir None st c = Returns st' ->
  exported_chats st' = S (exported_chats st).
Proof.
  intros Hmsgs. unfold chat_step. cbn [truthy andb].
  destruct (get_messages_for_chat conn (chat_id c)) as [|m ms];
    [contradiction|].
  destruct (for_each _ _ _) as [[st1 lines1]|] eqn:E; [|discriminate].
  cbn [bind]. intros E'. injection E' as <-. cbn [exported_chats].
  apply for_each_exported_chats in E. exact E.
Qed.

(** Claim C3, amended: with an active filter a conversation is handled
    as without filter when the lower-cased filter occurs in the
    lower-cased identifier, participant list or display name (an absent
    field being the empty string), and is skipped otherwise; so a
    conversation that has at least one message is skipped exactly when
    the filter does not occur, and is counted as exported when it
    occurs.  A conversation without messages is skipped whether the
    filter occurs or not.  The decision does not depend on the
    database. *)
Theorem contact_filter_spec conn readable_dir st c contact_filter :
  nonempty contact_filter = true ->
  (filter_matches contact_filter c = true
   <-> exists field,
         In field [ or_else (chat_identifier c) [];
                    or_else (participants c) [];
                    or_else (display_name c) [] ]
         /\ exists pre post,
              lower field = pre ++ lower contact_filter ++ post)
  /\ chat_step conn readable_dir (Some contact_filter) st c
     = (if filter_matches contact_filter c
        then chat_step conn readable_dir None st c
        else Returns st)
  /\ (get_messages_for_chat conn (chat_id c) <> [] ->
      (chat_step conn readable_dir (Some contact_filter) st c = Returns st
       <-> filter_matches contact_filter c = false))
  /\ (get_messages_for_chat conn (chat_id c) <> [] ->
      filter_matches contact_filter c = true ->
      forall st',
        chat_step conn readable_dir (Some contact_filter) st c = Returns st' ->
        exported_chats st' = S (exported_chats st))
  /\ (get_messages_for_chat conn (chat_id c) = [] ->
      chat_step conn readable_dir (Some contact_filter) st c = Returns st
      /\ chat_step conn readable_dir None st c = Returns st)
  /\ (forall conn',
        (filter_matches contact_filter c = false ->
         chat_step conn' readable_dir (Some contact_filter) st c = Returns st)
        /\ (filter_matches contact_filter c = true ->
            chat_step conn' readable_dir (Some contact_filter) st c
            = chat_step conn' readable_dir None st c)).
Proof.
  intros Hactive.
  assert (Hstep : forall conn0,
             chat_step conn0 readable_dir (Some contact_filter) st c
             = (if filter_matches contact_filter c
                then chat_step conn0 readable_dir None st c
                else Returns st)).
  { intros conn0. unfold chat_step. cbn [truthy]. rewrite Hactive.
    replace (or_else (Some contact_filter) []) with contact_filter
      by (now destruct contact_filter).
    now destruct (filter_matches contact_filter c). }
  assert (Hnone : get_messages_for_chat conn (chat_id c) = [] ->
                  chat_step conn readable_dir None st c = Returns st).
  { intros Hmsgs. unfold chat_step. cbn [truthy andb]. now rewrite Hmsgs. }
  split; [|split; [apply Hstep|split; [|split; [|split]]]].
  - unfold filter_matches. rewrite existsb_exists.
    split; intros (field & Hin & Hc); exists field; (split; [exact Hin|]);
      now apply contains_spec.
  - intros Hmsgs. rewrite Hstep.
    destruct (filter_matches contact_filter c); [|tauto].
    split; [|discriminate]. intros E. exfalso.
    apply chat_step_unfiltered_counts in E; [lia|exact Hmsgs].
  - intros Hmsgs Hmatch st'. rewrite Hstep, Hmatch.
    now apply chat_step_unfiltered_counts.
  - intros Hmsgs. split; [|now apply Hnone]. rewrite Hstep.
    destruct (filter_matches contact_filter c); [now apply Hnone|reflexivity].
  - intros conn'. rewrite Hstep. split; now intros ->.
Qed.

(** Claim C7, amended: a conversation of a text message, a "Liked"
    reaction and an attachment-only message gets a transcript of the
    header and exactly three message lines, in the order of the
    records; the target description of the reaction line comes from
    the body of the reaction record. *)
Theorem scenario_three_messages conn readable_dir st c m1 m2 m3 body
    dt1 dt2 dt3 :
  let chat_name := get_chat_display_name c in
  let chat_dir :=
    os_path.join readable_dir (sanitize_filename (Some chat_name)) in
  get_messages_for_chat conn (chat_id c) = [m1; m2; m3] ->
  apple_timestamp_to_datetime (message_date m1) = Returns dt1 ->
  apple_timestamp_to_datetime (message_date m2) = Returns dt2 ->
  apple_timestamp_to_datetime (message_date m3) = Returns dt3 ->
  format_reaction (associated_message_type m1) = None ->
  text m1 = Some body ->
  nonempty (strip (replace OBJECT_REPLACEMENT [] body)) = true ->
  get_attachments_for_message conn (message_id m1) = [] ->
  associated_message_type m2 = Some 2001%Z ->
  format_reaction (associated_message_type m3) = None ->
  strip (replace OBJECT_REPLACEMENT [] (or_else (text m3) [])) = [] ->
  get_attachments_for_message conn (message_id m3) <> [] ->
  exists st' notes,
    chat_step conn readable_dir None st c = Returns st'
    /\ List.length notes
       = List.length (get_attachments_for_message conn (message_id m3))
    /\ transcripts st'
       = (os_path.join chat_dir (lit "chat.txt"),
          join [newline]
            (header c chat_name [m1; m2; m3]
             ++ [ message_line (timestamp_label dt1) (sender_label m1)
                    (strip (replace OBJECT_REPLACEMENT [] body));
                  reaction_line (timestamp_label dt2) (sender_label m2)
                    (lit "Liked") (target_text m2);
                  message_line (timestamp_label dt3) (sender_label m3)
                    (content notes) ])
          ++ [newline])
         :: transcripts st
    /\ exported_chats st' = S (exported_chats st)
    /\ total_messages st' = 3 + total_messages st.
Proof.
  intros chat_name chat_dir Hmsgs Hdt1 Hdt2 Hdt3 Hr1 Hbody Hclean Hatt1 Hr2 Hr3
         Hempty Hatt3.
  unfold chat_step. cbn [truthy andb]. rewrite Hmsgs. fold chat_name chat_dir.
  cbn [for_each].
  rewrite (message_step_text _ _ _ _ _ Hdt1 Hr1 Hatt1 Hbody Hclean). cbn [bind].
  assert (Hliked : format_reaction (associated_message_type m2)
                   = Some (lit "Liked"))
    by (now rewrite Hr2).
  rewrite (message_step_reaction _ _ _ _ _ Hdt2 Hliked). cbn [bind].
  match goal with
  | |- context [message_step ?cn ?ad (?s, ?l) m3] =>
      destruct (@message_step_attachments_only cn ad s l m3 dt3 Hdt3 Hr3
                  Hempty Hatt3)
        as (fs' & notes & copied & _ & Hlen & ->)
  end.
  cbn [bind]. eexists. exists notes.
  split; [reflexivity|]. split; [exact Hlen|].
  cbn [transcripts exported_chats total_messages counted].
  rewrite <- !app_assoc. cbn [app]. repeat split.
Qed.

End Assembler.

(** ** The properties on the sample data *)

(** The export of the sample database writes one transcript, that of the
    conversation with messages. *)
Example export_sample :
  exists st,
    @do_readable_export UTC.reliable Example.db Example.disk Example.backup None
    = Returns st
    /\ transcripts st
       = [(Example.chat_txt, join [newline] Example.transcript ++ [newline])]
    /\ exported_chats st = 1 /\ total_messages st = 3
    /\ total_attachments_copied st = 1.
Proof.
  eexists. split; [vm_compute; reflexivity|]. vm_compute. repeat split.
Qed.

(** Claim C2 as stated fails: the body of this reaction is present and is
    not the placeholder alone, and the target description of its line is
    "a message", not the body. *)
Lemma reaction_target_counterexample :
  format_reaction (associated_message_type Example.loved_image)
  = Some (lit "Loved")
  /\ text Example.loved_image <> None
  /\ text Example.loved_image <> Some [OBJECT_REPLACEMENT]
  /\ @message_step UTC.reliable Example.db Example.att_dir
       (Example.start, []) Example.loved_image
     = Returns (counted Example.start,
                [lit "[Unknown date] Me Loved a message"])
  /\ Some (lit "a message") <> text Example.loved_image.
Proof. repeat split; try discriminate; vm_compute; reflexivity. Qed.

Lemma reaction_target_description_witness :
  @message_step UTC.reliable Example.db Example.att_dir
    (Example.start, []) Example.liked_quoting
  = Returns (counted Example.start,
             [lit "[2023-03-08 8:27 PM] +15551234567 Liked Liked "
              ++ [8220%N] ++ lit "hello" ++ [8221%N]])
  /\ target_text Example.liked_quoting
     = lit "Liked " ++ [8220%N] ++ lit "hello" ++ [8221%N]
  /\ target_text Example.loved_image = lit "a message".
Proof.
  eassert (Hdt : @apple_timestamp_to_datetime UTC.reliable
                   (message_date Example.liked_quoting) = Returns _)
    by (vm_compute; reflexivity).
  assert (Hliked : format_reaction
                     (associated_message_type Example.liked_quoting)
                   = Some (lit "Liked")) by (vm_compute; reflexivity).
  assert (Hloved : format_reaction
                     (associated_message_type Example.loved_image)
                   = Some (lit "Loved")) by (vm_compute; reflexivity).
  destruct (@reaction_target_description UTC.reliable Example.db
              Example.att_dir Example.start [] Example.liked_quoting _
              (lit "Liked") Hdt Hliked) as (Hstep & _ & Hbody).
  destruct (@reaction_target_description UTC.reliable Example.db
              Example.att_dir Example.start [] Example.loved_image None
              (lit "Loved") eq_refl Hloved) as (_ & Hplace & _).
  split; [|split].
  - rewrite Hstep. vm_compute. reflexivity.
  - apply Hbody; [reflexivity|discriminate|reflexivity].
  - apply Hplace. right. right. now exists (lit "Loved an image").
Defined.

(** Claim C3 as stated fails: the filter occurs in the identifier of the
    conversation without messages, and the export skips it all the
    same. *)
Lemma contact_filter_counterexample :
  @filter_matches UTC.reliable (lit "+1555") Example.silent = true
  /\ @chat_step UTC.reliable Example.db Example.readable_dir
       (Some (lit "+1555"))
       Example.start Example.silent
     = Returns Example.start
  /\ exists st,
       @do_readable_export UTC.reliable Example.db Example.disk Example.backup
         (Some (lit "+1555"))
       = Returns st
       /\ map fst (transcripts st) = [Example.chat_txt]
       /\ exported_chats st = 1.
Proof.
  split; [reflexivity|]. split; [reflexivity|].
  eexists. split; [vm_compute; reflexivity|]. vm_compute. repeat split.
Qed.

Lemma contact_filter_spec_witness :
  @filter_matches UTC.reliable (lit "+1555") Example.friend = true
  /\ @chat_step UTC.reliable Example.db Example.readable_dir
       (Some (lit "+1555"))
       Example.start Example.friend
     = @chat_step UTC.reliable Example.db Example.readable_dir None
         Example.start Example.friend
  /\ @chat_step UTC.reliable Example.db Example.readable_dir
       (Some (lit "+1555"))
       Example.start Example.friend
     <> Returns Example.start
  /\ @chat_step UTC.reliable Example.db Example.readable_dir
       (Some (lit "+1555"))
       Example.start Example.silent
     = Returns Example.start.
Proof.
  destruct (@contact_filter_spec UTC.reliable Example.db Example.readable_dir
              Example.start Example.friend (lit "+1555") eq_refl)
    as (Hmatch & Hstep & Hiff & _).
  destruct (@contact_filter_spec UTC.reliable Example.db Example.readable_dir
              Example.start Example.silent (lit "+1555") eq_refl)
    as (_ & _ & _ & _ & Hsilent & _).
  assert (Hm : @filter_matches UTC.reliable (lit "+1555") Example.friend
               = true).
  { apply Hmatch. exists Example.number. split; [now left|].
    now exists [], (lit "1234567"). }
  split; [exact Hm|]. split; [|split].
  - rewrite Hstep, Hm. reflexivity.
  - intros E. apply Hiff in E; [|discriminate]. rewrite Hm in E. discriminate.
  - now apply Hsilent.
Defined.

Lemma empty_message_suppressed_witness :
  @message_step UTC.reliable Example.db Example.att_dir
    (Example.start, Example.transcript) Example.blank
  = Returns (counted Example.start, Example.transcript).
Proof.
  eapply (@empty_message_suppressed UTC.reliable).
  - vm_compute. reflexivity.
  - vm_compute. reflexivity.
  - reflexivity.
  - right. vm_compute. reflexivity.
Defined.


(** The loop passes the names that are taken. *)
Example free_dest_path_sample :
  free_dest_path
    [lit "out/a.tar.gz"; lit "out/a.tar_1.gz"; lit "out/a.tar_3.gz"]
    (lit "out") (lit "a.tar.gz")
  = Some (lit "out/a.tar_2.gz").
Proof. vm_compute. reflexivity. Qed.


(** Claim C7 as stated fails: the transcript of the three messages has
    three message lines after its header, not two, and the reaction
    line, written from the reaction record alone, does not show the
    text of the first message. *)
Lemma scenario_three_messages_counterexample :
  get_messages_for_chat Example.db (chat_id Example.friend)
  = [Example.hello; Example.liked; Example.photo_message]
  /\ (exists st,
        @do_readable_export UTC.reliable Example.db Example.disk
          Example.backup None = Returns st
        /\ transcripts st
           = [(Example.chat_txt,
               join [newline] Example.transcript ++ [newline])])
  /\ firstn 5 Example.transcript
     = header Example.friend Example.number
         [Example.hello; Example.liked; Example.photo_message]
  /\ skipn 5 Example.transcript
     = [ lit "[2023-03-08 8:26 PM] Me: hello";
         lit "[2023-03-08 8:27 PM] +15551234567 Liked a message";
         lit "[2023-03-08 8:28 PM] +15551234567: <attachment: IMG_0001.jpg>" ]
  /\ List.length (skipn 5 Example.transcript) <> 2
  /\ contains (lit "hello") (nth 1 (skipn 5 Example.transcript) []) = false.
Proof.
  split; [reflexivity|]. split.
  - eexists. split; [vm_compute; reflexivity|]. vm_compute. reflexivity.
  - repeat split; try (vm_compute; reflexivity). discriminate.
Qed.

Lemma scenario_three_messages_witness :
  exists st' (notes : list str),
    @chat_step UTC.reliable Example.db Example.readable_dir None
      Example.start Example.friend = Returns st'
    /\ List.length notes = 1
    /\ exported_chats st' = 1
    /\ total_messages st' = 3.
Proof.
  eassert (Hdt1 : @apple_timestamp_to_datetime UTC.reliable
                    (message_date Example.hello) = Returns _)
    by (vm_compute; reflexivity).
  eassert (Hdt2 : @apple_timestamp_to_datetime UTC.reliable
                    (message_date Example.liked) = Returns _)
    by (vm_compute; reflexivity).
  eassert (Hdt3 : @apple_timestamp_to_datetime UTC.reliable
                    (message_date Example.photo_message) = Returns _)
    by (vm_compute; reflexivity).
  assert (Hclean : nonempty (strip (replace OBJECT_REPLACEMENT []
                                      (lit "hello"))) = true)
    by (vm_compute; reflexivity).
  assert (Hempty : strip (replace OBJECT_REPLACEMENT []
                            (or_else (text Example.photo_message) [])) = [])
    by (vm_compute; reflexivity).
  destruct (@scenario_three_messages UTC.reliable Example.db
              Example.readable_dir Example.start Example.friend
              Example.hello Example.liked Example.photo_message
              (lit "hello") _ _ _
              eq_refl Hdt1 Hdt2 Hdt3 eq_refl eq_refl Hclean eq_refl
              eq_refl eq_refl Hempty)
    as (st' & notes & Hstep & Hlen & _ & Hex & Htot); [discriminate|].
  exists st', notes.
  split; [exact Hstep|]. split; [exact Hlen|]. split; [exact Hex|exact Htot].
Defined.

(** * Further properties *)

(** ** File-name sanitiser and conversation name *)

Lemma tidy_Forall s :
  tidy s = true ->
  Forall (fun c => invalid_char c = false /\ c <> underscore
                   /\ (isspace c = true -> c = space)) s.
Proof.
  induction s as [|c r IH]; intros Ht; [constructor|].
  apply tidy_cons in Ht. destruct Ht as (Hp & _ & Ht).
  constructor; [|now apply IH].
  unfold plain_char in Hp. apply andb_true_iff in Hp. destruct Hp as [Hv Hb].
  apply negb_true_iff in Hv. apply orb_true_iff in Hb.
  split; [exact Hv|]. split.
  - intros ->. destruct Hb as [Hb|Hb]; discriminate.
  - intros Hs. destruct Hb as [Hb|Hb]; [|now apply N.eqb_eq].
    apply negb_true_iff in Hb. rewrite (isspace_blank _ Hs) in Hb. discriminate.
Qed.

Lemma tidy_no_double_space pre post :
  tidy (pre ++ space :: space :: post) = false.
Proof.
  induction pre as [|c pre IH].
  - cbn [app tidy starts_blank]. change (blank_char space) with true.
    cbn [andb negb]. now rewrite andb_false_r.
  - rewrite <- app_comm_cons. cbn [tidy]. rewrite IH. apply andb_false_r.
Qed.

Lemma rstrip_fixed_last init c :
  rstrip (init ++ [c]) = init ++ [c] -> isspace c = false.
Proof.
  induction init as [|a init IH]; cbn [app rstrip].
  - destruct (isspace c); [discriminate|reflexivity].
  - destruct (rstrip (init ++ [c])) as [|d r'] eqn:E.
    + intros E'. exfalso. apply (f_equal (@List.length N)) in E'.
      destruct (isspace a); cbn in E'; rewrite length_app in E'; cbn in E'; lia.
    + intros E'. injection E' as E'. apply IH. exact E'.
Qed.

(** Property X1: whatever the name, the sanitiser returns between 1 and
    100 characters, none of them refused, an underscore, a separator or
    a white space other than the space, with no space at either end and
    no two spaces in a row. *)
Theorem sanitize_filename_safe (name : option str) :
  let r := sanitize_filename name in
  nonempty r = true
  /\ List.length r <= 100
  /\ Forall (fun c => invalid_char c = false /\ c <> underscore
                      /\ (isspace c = true -> c = space)) r
  /\ existsb (N.eqb os_path.sep) r = false
  /\ (forall c rest, r = c :: rest -> isspace c = false)
  /\ (forall init c, r = init ++ [c] -> isspace c = false)
  /\ (forall pre post, r <> pre ++ space :: space :: post).
Proof.
  intros r.
  destruct (sanitize_filename_sanitized name) as (Ht & [Hl Hr] & Hlen & Hne).
  fold r in Ht, Hl, Hr, Hlen, Hne.
  pose proof (tidy_Forall _ Ht) as Hall.
  split; [exact Hne|]. split; [exact Hlen|]. split; [exact Hall|].
  split; [|split; [|split]].
  - destruct (existsb (N.eqb os_path.sep) r) eqn:E; [exfalso|reflexivity].
    apply existsb_exists in E. destruct E as (c & Hin & Hc).
    apply N.eqb_eq in Hc. subst c.
    rewrite Forall_forall in Hall. destruct (Hall _ Hin) as (Hv & _).
    discriminate.
  - intros c rest E. pose proof (lstrip_head r) as Hh. rewrite Hl, E in Hh.
    exact Hh.
  - intros init c E. rewrite E in Hr. now apply rstrip_fixed_last in Hr.
  - intros pre post E. rewrite E, tidy_no_double_space in Ht. discriminate.
Qed.

Lemma collapse_from_all_blank s :
  forallb blank_char s = true ->
  collapse_from true s = [] /\ strip (collapse_from false s) = [].
Proof.
  induction s as [|c r IH]; [now split|].
  cbn [forallb]. intros E. apply andb_true_iff in E. destruct E as [Hc Hr].
  destruct (IH Hr) as [Ht Hf]. cbn [collapse_from]. rewrite Hc, Ht.
  split; reflexivity.
Qed.

(** Property X2: a name that is absent, empty, or made only of refused
    characters, underscores and white space becomes "Unknown". *)
Theorem sanitize_filename_unknown (name : option str) :
  forallb (fun c => invalid_char c || blank_char c) (or_else name []) = true ->
  sanitize_filename name = lit "Unknown".
Proof.
  intros Hall. unfold sanitize_filename.
  destruct (truthy name); [|reflexivity]. cbn [negb].
  assert (Hb : forallb blank_char (replace_invalid (or_else name [])) = true).
  { unfold replace_invalid. rewrite forallb_forall in *. intros c Hc.
    apply in_map_iff in Hc. destruct Hc as (x & <- & Hx).
    specialize (Hall x Hx). destruct (invalid_char x); [reflexivity|exact Hall].
    }
  unfold collapse_blanks. destruct (collapse_from_all_blank _ Hb) as [_ ->].
  reflexivity.
Qed.

(** The names of one and of two dots pass the sanitiser unchanged. *)
Example sanitize_filename_dots :
  sanitize_filename (Some (lit ".")) = lit "."
  /\ sanitize_filename (Some (lit "..")) = lit "..".
Proof. split; vm_compute; reflexivity. Qed.

Lemma str_of_nat_digits n : Forall (fun c => (48 <= c <= 57)%N) (str_of_nat n).
Proof.
  unfold str_of_nat. generalize (Nat.to_uint n).
  induction u; cbn; constructor; try assumption; lia.
Qed.

Lemma str_of_int_inj z1 z2 : str_of_int z1 = str_of_int z2 -> z1 = z2.
Proof.
  assert (Hmix : forall p n, lit "-" ++ str_of_nat p <> str_of_nat n).
  { intros p n E. pose proof (str_of_nat_digits n) as Hd. rewrite <- E in Hd.
    inversion Hd as [|? ? Hc _]. lia. }
  destruct z1 as [|p1|p1], z2 as [|p2|p2]; cbn [str_of_int]; intros E;
    try (now apply Hmix in E); try (symmetry in E; now apply Hmix in E);
    try reflexivity.
  - apply str_of_nat_inj in E. lia.
  - apply str_of_nat_inj in E. lia.
  - apply str_of_nat_inj in E. lia.
  - apply app_inv_head, str_of_nat_inj in E. lia.
Qed.

(** Property X3: the name of a conversation is never empty; it is the
    first of display name, participants and identifier that has a
    value, else "Chat" with the row number, and two conversations named
    by their row numbers have the same name only if the numbers are
    equal. *)
Theorem get_chat_display_name_spec :
  (forall c, nonempty (get_chat_display_name c) = true)
  /\ (forall c,
        get_chat_display_name c
        = or_else (display_name c)
            (or_else (participants c)
               (or_else (chat_identifier c)
                  (lit "Chat " ++ str_of_int (chat_id c)))))
  /\ (forall c1 c2,
        truthy (display_name c1) = false ->
        truthy (participants c1) = false ->
        truthy (chat_identifier c1) = false ->
        truthy (display_name c2) = false ->
        truthy (participants c2) = false ->
        truthy (chat_identifier c2) = false ->
        get_chat_display_name c1 = get_chat_display_name c2 ->
        chat_id c1 = chat_id c2).
Proof.
  split; [|split].
  - intros c. unfold get_chat_display_name.
    destruct (display_name c) as [[|? ?]|]; try reflexivity;
      destruct (participants c) as [[|? ?]|]; try reflexivity;
      destruct (chat_identifier c) as [[|? ?]|]; reflexivity.
  - intros c. unfold get_chat_display_name.
    destruct (display_name c) as [[|? ?]|]; try reflexivity;
      destruct (participants c) as [[|? ?]|]; try reflexivity;
      destruct (chat_identifier c) as [[|? ?]|]; reflexivity.
  - intros c1 c2 Hd1 Hp1 Hi1 Hd2 Hp2 Hi2. unfold get_chat_display_name.
    rewrite Hd1, Hp1, Hi1, Hd2, Hp2, Hi2. intros E.
    apply app_inv_head in E. now apply str_of_int_inj.
Qed.

(** ** Reaction classifier *)

Lemma dict_get_In d k v : dict_get d k = Some v -> In (k, v) d.
Proof.
  induction d as [|[k' v'] d IH]; [discriminate|]. cbn [dict_get].
  destruct (Z.eqb_spec k k') as [->|_].
  - intros E. injection E as ->. now left.
  - intros E. right. now apply IH.
Qed.

Lemma In_dict_get d k v :
  NoDup (map fst d) -> In (k, v) d -> dict_get d k = Some v.
Proof.
  induction d as [|[k' v'] d IH]; [contradiction|].
  cbn [map fst dict_get]. intros Hnd [E|Hin].
  - injection E as -> ->. now rewrite Z.eqb_refl.
  - inversion Hnd as [|? ? Hnotin Hnd']; subst.
    destruct (Z.eqb_spec k k') as [->|_]; [|now apply IH].
    exfalso. apply Hnotin. apply in_map_iff. now exists (k', v).
Qed.

Lemma reactions_keys : map fst reactions
  = [2000; 2001; 2002; 2003; 2004; 2005; 3000; 3001; 3002; 3003; 3004; 3005]%Z.
Proof. reflexivity. Qed.

Lemma reactions_keys_NoDup : NoDup (map fst reactions).
Proof.
  rewrite reactions_keys.
  repeat (constructor;
          [cbn [In]; intros H; repeat destruct H as [H|H];
           try discriminate; exact H|]).
  constructor.
Qed.

Lemma reactions_phrases_NoDup : NoDup (map snd reactions).
Proof.
  vm_compute.
  repeat (constructor;
          [cbn [In]; intros H; repeat destruct H as [H|H];
           try discriminate; exact H|]).
  constructor.
Qed.

(** Property X4: a phrase is returned exactly for the codes 2000 to 2005
    and 3000 to 3005; every phrase is non-empty, so the truth test of
    the result is the test for a reaction; the codes of the table are
    distinct, no phrase stands for two codes, and the phrase of a code
    plus 1000 starts with "Removed". *)
Theorem format_reaction_codes :
  (forall code,
      truthy (format_reaction code) = true
      <-> exists c, code = Some c
                    /\ (2000 <= c <= 2005 \/ 3000 <= c <= 3005)%Z)
  /\ (forall code,
        format_reaction code = None
        <-> truthy (format_reaction code) = false)
  /\ NoDup (map fst reactions)
  /\ (forall c1 c2 phrase,
        format_reaction (Some c1) = Some phrase ->
        format_reaction (Some c2) = Some phrase -> c1 = c2)
  /\ (forall c, (2000 <= c <= 2005)%Z ->
        exists phrase,
          format_reaction (Some (c + 1000)%Z)
          = Some (lit "Removed " ++ phrase)).
Proof.
  assert (Hdom : forall c v, dict_get reactions c = Some v ->
                   (2000 <= c <= 2005 \/ 3000 <= c <= 3005)%Z).
  { intros c v E. apply dict_get_In in E.
    apply (in_map fst) in E. rewrite reactions_keys in E. cbn [fst In] in E.
    repeat destruct E as [E|E]; try contradiction; lia. }
  assert (Hin : forall c, (2000 <= c <= 2005 \/ 3000 <= c <= 3005)%Z ->
                  exists v, dict_get reactions c = Some v /\ nonempty v = true).
  { intros c Hc.
    assert (E : In c (map fst reactions)).
    { rewrite reactions_keys. cbn [In].
      assert (c = 2000 \/ c = 2001 \/ c = 2002 \/ c = 2003 \/ c = 2004
              \/ c = 2005 \/ c = 3000 \/ c = 3001 \/ c = 3002 \/ c = 3003
              \/ c = 3004 \/ c = 3005)%Z by lia.
      intuition auto. }
    apply in_map_iff in E. destruct E as ([k v] & Hk & Hkv). cbn [fst] in Hk.
    subst k.
    exists v. split; [now apply In_dict_get; [apply reactions_keys_NoDup|]|].
    apply (@format_reaction_nonempty (Some c)). cbn [format_reaction].
    now apply In_dict_get; [apply reactions_keys_NoDup|]. }
  split; [|split; [|split; [|split]]].
  - intros [c|]; cbn [format_reaction truthy]; split.
    + destruct (dict_get reactions c) as [v|] eqn:E; [|discriminate].
      intros _. exists c. split; [reflexivity|]. now apply Hdom in E.
    + intros (c' & E & Hc). injection E as <-.
      destruct (Hin c Hc) as (v & -> & Hv). exact Hv.
    + discriminate.
    + intros (c' & E & _). discriminate.
  - intros code. split; [now intros ->|].
    destruct (format_reaction code) as [v|] eqn:E; [|reflexivity].
    cbn [truthy]. now rewrite (format_reaction_nonempty _ E).
  - apply reactions_keys_NoDup.
  - cbn [format_reaction]. intros c1 c2 phrase E1 E2.
    apply dict_get_In in E1, E2.
    pose proof reactions_phrases_NoDup as Hnd.
    revert E1 E2 Hnd. generalize reactions.
    induction l as [|[k v] l IH]; [contradiction|].
    cbn [map snd In].
    intros [E1|E1] [E2|E2] Hnd; inversion Hnd as [|? ? Hnotin Hnd']; subst.
    + congruence.
    + injection E1 as -> ->. exfalso. apply Hnotin. apply in_map_iff.
      now exists (c2, phrase).
    + injection E2 as -> ->. exfalso. apply Hnotin. apply in_map_iff.
      now exists (c1, phrase).
    + now apply IH.
  - intros c Hc.
    assert (c = 2000 \/ c = 2001 \/ c = 2002 \/ c = 2003 \/ c = 2004
            \/ c = 2005)%Z as Hcases by lia.
    repeat destruct Hcases as [->|Hcases]; try subst c; eexists;
      vm_compute; reflexivity.
Qed.

(** ** Attachment materialiser *)

Lemma basename_is_plain p : plain_name (os_path.basename p).
Proof.
  unfold plain_name. induction p as [|c r IH]; [reflexivity|].
  cbn [os_path.basename].
  destruct (existsb (N.eqb os_path.sep) r) eqn:E; [exact IH|].
  destruct (N.eqb_spec c os_path.sep) as [->|Hne]; [exact E|].
  cbn [existsb]. rewrite E, orb_false_r. apply N.eqb_neq. congruence.
Qed.

Lemma create_fresh fs p :
  os_path.exists_ fs p = false -> os_path.create p fs = p :: fs.
Proof. unfold os_path.create. now intros ->. Qed.

Lemma free_dest_path_free fs dest_dir dest_name p :
  free_dest_path fs dest_dir dest_name = Some p -> os_path.exists_ fs p = false.
Proof.
  intros E.
  destruct (free_dest_path_spec fs dest_dir dest_name)
    as [[Hfree Hd] | (_ & n & _ & Hfree & _ & Hd)]; congruence.
Qed.

Lemma join_plain d x :
  plain_name x -> nonempty d = true -> endswith [os_path.sep] d = false ->
  os_path.join d x = d ++ [os_path.sep] ++ x.
Proof.
  intros Hx Hd He. unfold os_path.join. rewrite Hd, He. cbn [negb orb].
  destruct x as [|c r]; [reflexivity|]. unfold plain_name in Hx.
  cbn [existsb startswith] in *. apply orb_false_iff in Hx.
  destruct Hx as [-> _].
  reflexivity.
Qed.

Section Overwriting.
Context `{Host}.

Lemma copy_attachment_file_inv fs att dest_dir r fs' :
  copy_attachment_file fs att dest_dir = (r, fs') ->
  (r = None
   /\ (fs' = fs
       \/ exists p,
            fs' = p :: fs
            /\ os_path.exists_ fs p = false
            /\ truthy (filename att) = true
            /\ os_path.exists_ fs (source_path_of att) = true
            /\ free_dest_path fs dest_dir (dest_name_of att) = Some p
            /\ copy2 fs (source_path_of att) p = Failed true))
  \/ exists p,
       r = Some (os_path.basename p) /\ fs' = p :: fs
       /\ os_path.exists_ fs p = false
       /\ truthy (filename att) = true
       /\ os_path.exists_ fs (source_path_of att) = true
       /\ free_dest_path fs dest_dir (dest_name_of att) = Some p
       /\ copy2 fs (source_path_of att) p = Copied.
Proof.
  unfold copy_attachment_file.
  destruct (truthy (filename att)) eqn:Hf; cbn [negb];
    [|intros E; injection E as <- <-; left; split; [reflexivity|now left]].
  destruct (os_path.exists_ fs (source_path_of att)) eqn:Hs; cbn [negb];
    [|intros E; injection E as <- <-; left; split; [reflexivity|now left]].
  destruct (free_dest_path fs dest_dir (dest_name_of att)) as [p|] eqn:Hp;
    [|intros E; injection E as <- <-; left; split; [reflexivity|now left]].
  pose proof (free_dest_path_free _ _ _ Hp) as Hfree.
  destruct (copy2 fs (source_path_of att) p) as [|[|]] eqn:Hc;
    intros E; injection E as <- <-.
  - right. exists p. rewrite (create_fresh _ _ Hfree). repeat split; auto.
  - left. split; [reflexivity|]. right. exists p.
    rewrite (create_fresh _ _ Hfree). repeat split; auto.
  - left. split; [reflexivity|now left].
Qed.

(** Property X5: the materialiser removes no path and overwrites none:
    the file system afterwards is the one before, or the one before
    with one path more, which did not exist and is not the source.  It
    returns a name exactly when the record has a file name, the source
    exists and the copy completes, and the path added then has the
    returned name, free of separators, as its last component.  Without
    a file name or a source nothing is created; a path added without a
    name returned is the destination of a copy that failed. *)
Theorem copy_attachment_file_never_overwrites fs att dest_dir r fs' :
  copy_attachment_file fs att dest_dir = (r, fs') ->
  (forall q, os_path.exists_ fs q = true -> os_path.exists_ fs' q = true)
  /\ (fs' = fs
      \/ exists p,
           free_dest_path fs dest_dir (dest_name_of att) = Some p
           /\ os_path.exists_ fs p = false /\ fs' = p :: fs
           /\ p <> source_path_of att)
  /\ (truthy (filename att) = false
      \/ os_path.exists_ fs (source_path_of att) = false ->
      r = None /\ fs' = fs)
  /\ ((exists name, r = Some name)
      <-> truthy (filename att) = true
          /\ os_path.exists_ fs (source_path_of att) = true
          /\ exists p, free_dest_path fs dest_dir (dest_name_of att) = Some p
                       /\ copy2 fs (source_path_of att) p = Copied)
  /\ (forall name, r = Some name ->
        plain_name name
        /\ exists p, os_path.exists_ fs p = false /\ fs' = p :: fs
                     /\ name = os_path.basename p
                     /\ p <> source_path_of att)
  /\ (r = None -> fs' <> fs ->
      exists p,
        free_dest_path fs dest_dir (dest_name_of att) = Some p
        /\ copy2 fs (source_path_of att) p = Failed true
        /\ fs' = p :: fs).
Proof.
  intros Hcopy. pose proof Hcopy as Hinv.
  apply copy_attachment_file_inv in Hinv.
  assert (Hearly : truthy (filename att) = false
                   \/ os_path.exists_ fs (source_path_of att) = false ->
                   r = None /\ fs' = fs).
  { unfold copy_attachment_file in Hcopy. intros [Hf|Hs].
    - rewrite Hf in Hcopy. now injection Hcopy as <- <-.
    - rewrite Hs in Hcopy. destruct (negb (truthy (filename att)));
        now injection Hcopy as <- <-. }
  destruct Hinv
    as [[-> [-> | (p & -> & Hfree & Hf & Hs & Hp & Hc)]]
       | (p & -> & -> & Hfree & Hf & Hs & Hp & Hc)].
  - split; [auto|]. split; [now left|]. split; [exact Hearly|].
    split; [|split; [discriminate|congruence]].
    split; [intros [name E]; discriminate|].
    intros (Hf & Hs & p & Hp & Hc). unfold copy_attachment_file in Hcopy.
    rewrite Hf, Hs, Hp, Hc in Hcopy. discriminate.
  - split; [intros q Hq; apply exists_In; right; now apply exists_In|].
    split; [right; exists p; repeat split; auto; congruence|].
    split; [exact Hearly|].
    split; [|split; [discriminate|intros _ _; now exists p]].
    split; [intros [name E]; discriminate|].
    intros (_ & _ & p' & Hp' & Hc'). congruence.
  - split; [intros q Hq; apply exists_In; right; now apply exists_In|].
    split; [right; exists p; repeat split; auto; congruence|].
    split; [exact Hearly|].
    split; [|split; [|discriminate]].
    + split; [|intros _; now exists (os_path.basename p)].
      intros _. repeat split; auto. now exists p.
    + intros name E. injection E as <-. split; [apply basename_is_plain|].
      exists p. repeat split; auto. congruence.
Qed.

(** Property X6: when the destination name holds no separator, the copy
    is a direct child of the destination directory, under the name
    itself or the name with a number before its extension. *)
Theorem copy_attachment_file_in_directory fs att dest_dir name fs' :
  plain_name (dest_name_of att) ->
  nonempty dest_dir = true ->
  endswith [os_path.sep] dest_dir = false ->
  copy_attachment_file fs att dest_dir = (Some name, fs') ->
  fs' = (dest_dir ++ [os_path.sep] ++ name) :: fs
  /\ (name = dest_name_of att
      \/ exists n, 1 <= n
           /\ name = fst (os_path.splitext (dest_name_of att))
                     ++ lit "_" ++ str_of_nat n
                     ++ snd (os_path.splitext (dest_name_of att))).
Proof.
  intros Hplain Hd He Hcopy. apply copy_attachment_file_inv in Hcopy.
  destruct Hcopy as [[E _] | (p & E & -> & _ & _ & _ & Hp & _)];
    [discriminate|].
  injection E as ->.
  set (base := fst (os_path.splitext (dest_name_of att))) in *.
  set (ext := snd (os_path.splitext (dest_name_of att))) in *.
  destruct (free_dest_path_spec fs dest_dir (dest_name_of att))
    as [[_ Hd'] | (_ & n & Hn & _ & _ & Hd')]; rewrite Hd' in Hp;
    injection Hp as <-.
  - rewrite basename_join by assumption. rewrite join_plain by assumption.
    split; [reflexivity|now left].
  - fold base ext. unfold numbered_path.
    assert (Hplain' : plain_name (base ++ lit "_" ++ str_of_nat n ++ ext)).
    { apply plain_numbered. unfold base, ext. now rewrite splitext_app. }
    rewrite basename_join by assumption. rewrite join_plain by assumption.
    split; [reflexivity|]. right. exists n. split; [lia|reflexivity].
Qed.

End Overwriting.

Lemma rfind_from_range i c p :
  os_path.rfind_from i c p = (-1)%Z \/ (i <= os_path.rfind_from i c p)%Z.
Proof.
  revert i. induction p as [|x r IH]; intros i; [now left|].
  cbn [os_path.rfind_from]. cbv zeta.
  destruct (Z.leb_spec 0 (os_path.rfind_from (i + 1) c r)).
  - destruct (IH (i + 1)%Z); [lia|right; lia].
  - destruct (x =? c)%N; [right; lia|now left].
Qed.

Lemma splitext_absolute p :
  startswith [os_path.sep] p = true ->
  startswith [os_path.sep] (fst (os_path.splitext p)) = true.
Proof.
  intros Hp. unfold os_path.splitext.
  destruct (os_path.rfind os_path.sep p
            <? os_path.rfind os_path.extsep p)%Z eqn:E;
    [|exact Hp].
  destruct (existsb _ _); [|exact Hp]. cbn [fst].
  destruct p as [|c r]; [discriminate|]. cbn [startswith] in Hp.
  apply andb_true_iff in Hp. destruct Hp as [Hc _]. apply N.eqb_eq in Hc.
  subst c.
  assert (Hdot : (1 <= os_path.rfind os_path.extsep (os_path.sep :: r))%Z).
  { apply Z.ltb_lt in E. unfold os_path.rfind in *.
    cbn [os_path.rfind_from] in *. cbv zeta in *.
    change (os_path.sep =? os_path.extsep)%N with false in *.
    change (os_path.sep =? os_path.sep)%N with true in *.
    destruct (rfind_from_range 1 os_path.extsep r) as [Hr|Hr];
      destruct (rfind_from_range 1 os_path.sep r) as [Hs|Hs];
      destruct (Z.leb_spec 0 (os_path.rfind_from (0 + 1) os_path.extsep r));
      destruct (Z.leb_spec 0 (os_path.rfind_from (0 + 1) os_path.sep r));
      change (0 + 1)%Z with 1%Z in *; lia. }
  destruct (Z.to_nat (os_path.rfind os_path.extsep (os_path.sep :: r)))
    eqn:En; [lia|].
  cbn [firstn startswith]. now rewrite N.eqb_refl.
Qed.

Lemma join_absolute d x :
  startswith [os_path.sep] x = true -> os_path.join d x = x.
Proof. unfold os_path.join. now intros ->. Qed.

Lemma startswith_app p a b :
  startswith p a = true -> nonempty a = true -> List.length p <= 1 ->
  startswith p (a ++ b) = true.
Proof.
  destruct p as [|x [|y p]]; [reflexivity| |cbn; lia].
  destruct a as [|c a]; [discriminate|]. cbn [startswith app].
  now rewrite !andb_true_r.
Qed.

Lemma free_path_loop_absolute fuel fs d1 d2 base ext :
  startswith [os_path.sep] base = true ->
  forall counter dest_path,
    free_path_loop fuel fs d1 base ext counter dest_path
    = free_path_loop fuel fs d2 base ext counter dest_path.
Proof.
  intros Hb.
  induction fuel as [|fuel IH]; intros counter dest_path; [reflexivity|].
  cbn [free_path_loop]. destruct (os_path.exists_ fs dest_path); [|reflexivity].
  unfold numbered_path. rewrite !join_absolute; [apply IH| |];
    (apply startswith_app; [exact Hb|now destruct base|cbn; lia]).
Qed.

Section Absolute.
Context `{Host}.

(** Property X7: a destination name that starts with a separator is used
    as the path itself: the result does not depend on the destination
    directory, and the path written starts with the separator. *)
Theorem copy_attachment_file_absolute_name fs att :
  startswith [os_path.sep] (dest_name_of att) = true ->
  (forall d1 d2,
      copy_attachment_file fs att d1 = copy_attachment_file fs att d2)
  /\ (forall dest_dir name fs',
        copy_attachment_file fs att dest_dir = (Some name, fs') ->
        exists p, fs' = p :: fs /\ startswith [os_path.sep] p = true
                  /\ (p = dest_name_of att
                      \/ exists n, 1 <= n
                           /\ p = fst (os_path.splitext (dest_name_of att))
                                  ++ lit "_" ++ str_of_nat n
                                  ++ snd (os_path.splitext
                                            (dest_name_of att)))).
Proof.
  intros Habs.
  pose proof (splitext_absolute _ Habs) as Hbase.
  assert (Hfree : forall d1 d2,
             free_dest_path fs d1 (dest_name_of att)
             = free_dest_path fs d2 (dest_name_of att)).
  { intros d1 d2. rewrite !free_dest_path_unfold, !join_absolute by exact Habs.
    now apply free_path_loop_absolute. }
  split.
  - intros d1 d2. unfold copy_attachment_file. now rewrite (Hfree d1 d2).
  - intros dest_dir name fs' Hcopy. apply copy_attachment_file_inv in Hcopy.
    destruct Hcopy as [[E _] | (p & _ & -> & _ & _ & _ & Hp & _)];
      [discriminate|].
    exists p. split; [reflexivity|].
    destruct (free_dest_path_spec fs dest_dir (dest_name_of att))
      as [[_ Hd] | (_ & n & Hn & _ & _ & Hd)]; rewrite Hd in Hp;
      injection Hp as <-.
    + rewrite join_absolute by exact Habs. split; [exact Habs|now left].
    + unfold numbered_path.
      assert (Hs : startswith [os_path.sep]
                     (fst (os_path.splitext (dest_name_of att))
                      ++ lit "_" ++ str_of_nat n
                      ++ snd (os_path.splitext (dest_name_of att))) = true).
      { apply startswith_app; [exact Hbase| |cbn; lia].
        now destruct (fst (os_path.splitext (dest_name_of att))). }
      rewrite join_absolute by exact Hs. split; [exact Hs|].
      right. exists n. split; [lia|reflexivity].
Qed.

End Absolute.

(** ** Transcript assembler *)

Lemma exists_create_keeps fs p q :
  os_path.exists_ fs q = true -> os_path.exists_ (os_path.create p fs) q = true.
Proof. intros Hq. apply exists_create. now right. Qed.

Lemma format_reaction_falsy code :
  truthy (format_reaction code) = false -> format_reaction code = None.
Proof.
  destruct (format_reaction code) as [v|] eqn:E; [|reflexivity].
  cbn [truthy]. now rewrite (format_reaction_nonempty _ E).
Qed.

Lemma app_one_neq (A : Type) (l : list A) x : l ++ [x] <> l.
Proof.
  intros E. apply (f_equal (@List.length A)) in E.
  rewrite length_app in E. cbn in E. lia.
Qed.

Section Effects.
Context `{Host}.

Lemma attachment_step_effect att_dir fs0 notes n att fs' notes' n' :
  attachment_step att_dir (fs0, notes, n) att = (fs', notes', n') ->
  (forall q, os_path.exists_ fs0 q = true -> os_path.exists_ fs' q = true)
  /\ os_path.exists_ fs' att_dir = true
  /\ n <= n' <= S n
  /\ exists note, notes' = notes ++ [note].
Proof.
  unfold attachment_step.
  destruct (copy_attachment_file (os_path.create att_dir fs0) att att_dir)
    as [copied fs1] eqn:Hcopy.
  assert (Hkeep : forall q,
             os_path.exists_ (os_path.create att_dir fs0) q = true ->
             os_path.exists_ fs1 q = true).
  { apply copy_attachment_file_inv in Hcopy.
    destruct Hcopy as [[_ [-> | (p & -> & _)]] | (p & _ & -> & _)]; [auto| |];
      intros q Hq; apply exists_In; right; now apply exists_In. }
  assert (Hgrow : forall q, os_path.exists_ fs0 q = true ->
                    os_path.exists_ fs1 q = true)
    by (intros q Hq; now apply Hkeep, exists_create_keeps).
  assert (Hdir : os_path.exists_ fs1 att_dir = true)
    by (apply Hkeep, exists_create; now left).
  destruct (truthy copied); intros E; injection E as <- <- <-;
    (split; [exact Hgrow|]; split; [exact Hdir|]; split; [lia|]; eauto).
Qed.

Lemma fold_attachment_effect att_dir atts :
  forall fs0 notes n fs' notes' n',
    fold_left (attachment_step att_dir) atts (fs0, notes, n)
    = (fs', notes', n') ->
    (forall q, os_path.exists_ fs0 q = true -> os_path.exists_ fs' q = true)
    /\ n <= n' <= n + List.length atts
    /\ exists extra,
         notes' = notes ++ extra /\ List.length extra = List.length atts.
Proof.
  induction atts as [|att atts IH]; intros fs0 notes n fs' notes' n';
    cbn [fold_left].
  - intros E. injection E as <- <- <-. split; [auto|]. split; [cbn; lia|].
    exists []. now rewrite app_nil_r.
  - destruct (attachment_step att_dir (fs0, notes, n) att)
      as [[fs1 notes1] n1] eqn:E1.
    intros E. apply IH in E. destruct E as (Hg & Hn & extra & -> & Hlen).
    apply attachment_step_effect in E1.
    destruct E1 as (Hg1 & _ & Hn1 & note & ->).
    split; [auto|]. split; [cbn [List.length]; lia|].
    exists (note :: extra). rewrite <- app_assoc. split; [reflexivity|].
    cbn [List.length]. now rewrite Hlen.
Qed.

Lemma message_parts_nil body notes :
  message_parts body notes = []
  <-> strip (replace OBJECT_REPLACEMENT [] body) = [] /\ notes = [].
Proof.
  unfold message_parts. split.
  - intros E. apply app_eq_nil in E. destruct E as [E ->].
    split; [|reflexivity].
    destruct (strip (replace OBJECT_REPLACEMENT [] body)) as [|c r] eqn:Ec;
      [reflexivity|exfalso].
    assert (Hne : nonempty (strip (replace OBJECT_REPLACEMENT [] body)) = true)
      by now rewrite Ec.
    rewrite (clean_text_nonempty _ Hne) in E. cbv zeta in E.
    rewrite ?Ec in E. cbn [nonempty] in E. discriminate.
  - intros [-> ->]. now destruct (nonempty (strip body)).
Qed.

(** Property X8: a message that is processed counts once, leaves the
    conversation counter and the transcripts written alone, removes no
    path, copies at most as many attachments as it has when it is no
    reaction and none when it is one, and adds at most one line, which
    starts with the timestamp and the sender; it adds none exactly
    when it is no reaction, has no attachment and no text left. *)
Theorem message_step_effect conn att_dir st lines msg st' lines' :
  message_step conn att_dir (st, lines) msg = Returns (st', lines') ->
  total_messages st' = S (total_messages st)
  /\ exported_chats st' = exported_chats st
  /\ transcripts st' = transcripts st
  /\ (forall q, os_path.exists_ (fs st) q = true ->
                os_path.exists_ (fs st') q = true)
  /\ total_attachments_copied st <= total_attachments_copied st'
     <= total_attachments_copied st + visited_attachments conn msg
  /\ (exists dt,
        apple_timestamp_to_datetime (message_date msg) = Returns dt
        /\ (lines' = lines
            \/ exists rest,
                 lines' = lines ++ [lit "[" ++ timestamp_label dt ++ lit "] "
                                    ++ sender_label msg ++ rest]))
  /\ (lines' = lines
      <-> format_reaction (associated_message_type msg) = None
          /\ get_attachments_for_message conn (message_id msg) = []
          /\ strip (replace OBJECT_REPLACEMENT [] (or_else (text msg) []))
             = []).
Proof.
  unfold message_step, visited_attachments.
  destruct (apple_timestamp_to_datetime (message_date msg)) as [dt|];
    [|discriminate].
  cbn [bind].
  destruct (truthy (format_reaction (associated_message_type msg))) eqn:Hr.
  - intros E. injection E as <- <-.
    cbn [total_messages exported_chats transcripts fs
         total_attachments_copied].
    refine (conj _ (conj _ (conj _ (conj _ (conj _ (conj _ _))))));
      try reflexivity.
    + auto.
    + lia.
    + exists dt. split; [reflexivity|]. right. unfold reaction_line. eauto.
    + split; [intros E; now apply app_one_neq in E|].
      intros (Hnone & _). rewrite Hnone in Hr. discriminate.
  - destruct (fold_left _ _ _) as [[fs1 notes] copied] eqn:Hfold.
    apply fold_attachment_effect in Hfold.
    destruct Hfold as (Hg & Hn & extra & -> & Hlen). cbn [app] in *.
    pose proof (message_parts_nil (or_else (text msg) []) extra) as Hnil.
    destruct (message_parts (or_else (text msg) []) extra) as [|part parts]
      eqn:Hp;
      cbn [has_parts negb]; intros E; injection E as <- <-;
      cbn [total_messages exported_chats transcripts fs
           total_attachments_copied];
      (refine (conj _ (conj _ (conj _ (conj _ (conj _ (conj _ _))))));
       [reflexivity|reflexivity|reflexivity|exact Hg|lia| | ]).
    + exists dt. split; [reflexivity|]. now left.
    + destruct Hnil as [Hnil _]. destruct (Hnil eq_refl) as [Hclean ->].
      split; [intros _|reflexivity].
      split; [now apply format_reaction_falsy|]. split; [|exact Hclean].
      destruct (get_attachments_for_message conn (message_id msg));
        [reflexivity|discriminate].
    + exists dt. split; [reflexivity|]. right. unfold message_line. eauto.
    + split; [intros E; now apply app_one_neq in E|].
      intros (_ & Hatts & Hclean). exfalso.
      rewrite Hatts in Hlen. destruct extra; [|discriminate].
      destruct Hnil as [_ Hnil]. discriminate Hnil. now split.
Qed.

End Effects.

Lemma join_suffix d x : exists pre, os_path.join d x = pre ++ x.
Proof.
  unfold os_path.join. destruct (startswith [os_path.sep] x); [now exists []|].
  destruct (negb (nonempty d) || endswith [os_path.sep] d);
    [now exists d|exists (d ++ [os_path.sep])]. now rewrite <- app_assoc.
Qed.

Lemma endswith_sep_last pre init c :
  c <> os_path.sep -> endswith [os_path.sep] (pre ++ init ++ [c]) = false.
Proof.
  intros Hc. unfold endswith. rewrite !rev_app_distr. cbn [rev app startswith].
  apply andb_false_iff. left. apply N.eqb_neq. congruence.
Qed.

Lemma nonempty_last (s : str) :
  nonempty s = true -> exists init c, s = init ++ [c].
Proof.
  intros Hs. destruct s as [|a s]; [discriminate|].
  exists (removelast (a :: s)), (last (a :: s) 0%N).
  apply app_removelast_last. discriminate.
Qed.

(** A directory named by the sanitiser is a child of its parent, and
    names its own children by appending to it. *)
Lemma sanitized_directory d name :
  let safe := sanitize_filename name in
  let dir := os_path.join d safe in
  os_path.basename dir = safe
  /\ nonempty dir = true
  /\ endswith [os_path.sep] dir = false.
Proof.
  intros safe dir.
  destruct (sanitize_filename_sanitized name) as (Ht & _ & _ & Hne).
  fold safe in Ht, Hne.
  assert (Hplain : plain_name safe).
  { unfold plain_name. destruct (existsb (N.eqb os_path.sep) safe) eqn:E;
      [exfalso|reflexivity].
    apply existsb_exists in E. destruct E as (c & Hin & Hc).
    apply N.eqb_eq in Hc. subst c. pose proof (tidy_Forall _ Ht) as Hall.
    rewrite Forall_forall in Hall. destruct (Hall _ Hin) as (Hv & _).
    discriminate. }
  split; [now apply basename_join|].
  destruct (join_suffix d safe) as [pre Hpre]. fold dir in Hpre.
  destruct (nonempty_last _ Hne) as (init & c & Hs).
  assert (Hc : c <> os_path.sep).
  { intros ->. unfold plain_name in Hplain. rewrite Hs, existsb_app in Hplain.
    cbn in Hplain. now rewrite orb_true_r in Hplain. }
  rewrite Hpre, Hs. split; [|now apply endswith_sep_last].
  destruct pre; [destruct init|]; reflexivity.
Qed.

Section Loops.
Context `{Host}.
Variable conn : connection.

Lemma message_step_counts att_dir st lines msg st' lines' :
  message_step conn att_dir (st, lines) msg = Returns (st', lines') ->
  converts msg = true
  /\ total_messages st' = S (total_messages st)
  /\ exported_chats st' = exported_chats st
  /\ transcripts st' = transcripts st
  /\ (forall q, os_path.exists_ (fs st) q = true ->
                os_path.exists_ (fs st') q = true)
  /\ total_attachments_copied st <= total_attachments_copied st'
     <= total_attachments_copied st + visited_attachments conn msg
  /\ exists added, lines' = lines ++ added /\ List.length added <= 1.
Proof.
  unfold message_step, visited_attachments, converts.
  destruct (apple_timestamp_to_datetime (message_date msg)) as [dt|];
    [|discriminate].
  cbn [bind].
  destruct (truthy (format_reaction (associated_message_type msg)));
    cbv iota.
  - intros E. injection E as <- <-.
    cbn [total_messages exported_chats transcripts fs
         total_attachments_copied].
    refine (conj _ (conj _ (conj _ (conj _ (conj _ (conj _ _))))));
      try reflexivity; [auto|lia|].
    eexists. split; [reflexivity|cbn; lia].
  - destruct (fold_left _ _ _) as [[fs1 notes] copied] eqn:Hfold.
    apply fold_attachment_effect in Hfold. destruct Hfold as (Hg & Hn & _).
    destruct (negb (has_parts _)); intros E; injection E as <- <-;
      cbn [total_messages exported_chats transcripts fs
           total_attachments_copied];
      (refine (conj _ (conj _ (conj _ (conj _ (conj _ (conj _ _))))));
       [reflexivity|reflexivity|reflexivity|reflexivity|exact Hg|lia|]).
    + exists []. split; [now rewrite app_nil_r|cbn; lia].
    + eexists. split; [reflexivity|cbn; lia].
Qed.

Lemma message_loop_counts att_dir msgs :
  forall st lines st' lines',
    for_each (message_step conn att_dir) msgs (st, lines)
    = Returns (st', lines') ->
    forallb converts msgs = true
    /\ total_messages st' = total_messages st + List.length msgs
    /\ exported_chats st' = exported_chats st
    /\ transcripts st' = transcripts st
    /\ (forall q, os_path.exists_ (fs st) q = true ->
                  os_path.exists_ (fs st') q = true)
    /\ total_attachments_copied st <= total_attachments_copied st'
       <= total_attachments_copied st
          + list_sum (map (visited_attachments conn) msgs)
    /\ exists added, lines' = lines ++ added
                     /\ List.length added <= List.length msgs.
Proof.
  induction msgs as [|m msgs IH]; intros st lines st' lines'; cbn [for_each].
  - intros E. injection E as <- <-. cbn [forallb List.length map list_sum].
    refine (conj _ (conj _ (conj _ (conj _ (conj _ (conj _ _))))));
      try reflexivity; [lia|auto|lia|].
    exists []. split; [now rewrite app_nil_r|cbn; lia].
  - destruct (message_step conn att_dir (st, lines) m)
      as [[st1 lines1]|] eqn:E1;
      [|discriminate].
    cbn [bind]. intros E. apply IH in E.
    destruct E as (Hc & Ht & He & Htr & Hg & Hn & added & -> & Hlen).
    apply message_step_counts in E1.
    destruct E1 as (Hc1 & Ht1 & He1 & Htr1 & Hg1 & Hn1 & added1 & -> & Hlen1).
    cbn [forallb List.length map]. rewrite Hc1, Hc.
    change (list_sum (visited_attachments conn m
                      :: map (visited_attachments conn) msgs))
      with (visited_attachments conn m
            + list_sum (map (visited_attachments conn) msgs)).
    refine (conj _ (conj _ (conj _ (conj _ (conj _ (conj _ _))))));
      [reflexivity|lia|congruence|congruence|auto|lia|].
    exists (added1 ++ added). rewrite app_assoc. split; [reflexivity|].
    rewrite length_app. lia.
Qed.

Variable readable_dir : str.
Variable contact_filter : option str.

Lemma chat_step_skip st c :
  selected conn contact_filter c = false ->
  chat_step conn readable_dir contact_filter st c = Returns st.
Proof.
  unfold selected, chat_step.
  destruct (truthy contact_filter && negb (filter_matches _ c)); [reflexivity|].
  cbn [negb andb]. now destruct (get_messages_for_chat conn (chat_id c)).
Qed.

Lemma chat_step_unfold st c :
  selected conn contact_filter c = true ->
  let name := get_chat_display_name c in
  let chat_dir :=
    os_path.join readable_dir (sanitize_filename (Some name)) in
  let msgs := get_messages_for_chat conn (chat_id c) in
  chat_step conn readable_dir contact_filter st c
  = bind
      (for_each (message_step conn (os_path.join chat_dir (lit "attachments")))
         msgs
         ({| fs := os_path.create chat_dir (fs st);
             transcripts := transcripts st;
             exported_chats := S (exported_chats st);
             total_messages := total_messages st;
             total_attachments_copied := total_attachments_copied st |},
          header c name msgs))
      (fun r =>
         Returns
           {| fs := os_path.create (transcript_path_of readable_dir c)
                      (fs (fst r));
              transcripts :=
                (transcript_path_of readable_dir c,
                 join [newline] (snd r) ++ [newline])
                :: transcripts (fst r);
              exported_chats := exported_chats (fst r);
              total_messages := total_messages (fst r);
              total_attachments_copied := total_attachments_copied (fst r) |}).
Proof.
  unfold selected, chat_step, transcript_path_of.
  destruct (truthy contact_filter && negb (filter_matches _ c));
    [discriminate|].
  cbn [negb andb]. destruct (get_messages_for_chat conn (chat_id c)) eqn:E;
    [discriminate|].
  intros _. cbv zeta. destruct (for_each _ _ _) as [[st1 lines1]|]; reflexivity.
Qed.

Lemma chat_step_counts st c st' :
  selected conn contact_filter c = true ->
  chat_step conn readable_dir contact_filter st c = Returns st' ->
  let msgs := get_messages_for_chat conn (chat_id c) in
  forallb converts msgs = true
  /\ exported_chats st' = S (exported_chats st)
  /\ total_messages st' = total_messages st + List.length msgs
  /\ (forall q, os_path.exists_ (fs st) q = true ->
                os_path.exists_ (fs st') q = true)
  /\ os_path.exists_ (fs st') (transcript_path_of readable_dir c) = true
  /\ total_attachments_copied st <= total_attachments_copied st'
     <= total_attachments_copied st
        + list_sum (map (visited_attachments conn) msgs)
  /\ exists added,
       transcripts st'
       = (transcript_path_of readable_dir c,
          join [newline] (header c (get_chat_display_name c) msgs ++ added)
          ++ [newline]) :: transcripts st
       /\ List.length added <= List.length msgs.
Proof.
  intros Hsel. rewrite (@chat_step_unfold st c Hsel). cbv zeta.
  destruct (for_each _ _ _) as [[st1 lines1]|] eqn:E; [|discriminate].
  cbn [bind fst snd]. intros E'. injection E' as <-.
  apply message_loop_counts in E.
  destruct E as (Hc & Ht & He & Htr & Hg & Hn & added & -> & Hlen).
  cbn [fs transcripts exported_chats total_messages total_attachments_copied]
    in *.
  refine (conj _ (conj _ (conj _ (conj _ (conj _ (conj _ _))))));
    [exact Hc|exact He|exact Ht| | |exact Hn|].
  - intros q Hq. now apply exists_create_keeps, Hg, exists_create_keeps.
  - apply exists_create. now left.
  - exists added. rewrite Htr. split; [reflexivity|exact Hlen].
Qed.

End Loops.

Lemma filter_narrow_length (A : Type) (p q : A -> bool) (w : A -> nat) l :
  (forall x, p x = true -> q x = true) ->
  List.length (filter p l) <= List.length (filter q l)
  /\ list_sum (map w (filter p l)) <= list_sum (map w (filter q l))
  /\ incl (filter p l) (filter q l).
Proof.
  intros Hpq. induction l as [|a l (IH1 & IH2 & IH3)];
    [cbn; repeat split; [lia|lia|apply incl_refl]|].
  cbn [filter]. destruct (p a) eqn:Hp.
  - rewrite (Hpq _ Hp). cbn [List.length map].
    change (list_sum (w a :: map w (filter p l)))
      with (w a + list_sum (map w (filter p l))).
    change (list_sum (w a :: map w (filter q l)))
      with (w a + list_sum (map w (filter q l))).
    repeat split; [lia|lia|].
    intros x [->|Hx]; [now left|right; now apply IH3].
  - destruct (q a); cbn [List.length map].
    + change (list_sum (w a :: map w (filter q l)))
        with (w a + list_sum (map w (filter q l))).
      repeat split; [lia|lia|]. intros x Hx. right. now apply IH3.
    + repeat split; assumption.
Qed.

Section Conversations.
Context `{Host}.
Variable conn : connection.
Variable readable_dir : str.
Variable contact_filter : option str.

Lemma chat_loop_counts chats :
  forall st st',
    for_each (chat_step conn readable_dir contact_filter) chats st
    = Returns st' ->
    let sel := filter (selected conn contact_filter) chats in
    exported_chats st' = exported_chats st + List.length sel
    /\ total_messages st'
       = total_messages st
         + list_sum (map (fun c => List.length (messages_of conn c)) sel)
    /\ map fst (transcripts st')
       = rev (map (transcript_path_of readable_dir) sel)
         ++ map fst (transcripts st)
    /\ (forall q, os_path.exists_ (fs st) q = true ->
                  os_path.exists_ (fs st') q = true)
    /\ (forall c, In c sel ->
          os_path.exists_ (fs st') (transcript_path_of readable_dir c) = true)
    /\ total_attachments_copied st <= total_attachments_copied st'
       <= total_attachments_copied st
          + list_sum
              (map (fun c =>
                      list_sum (map (visited_attachments conn)
                                  (messages_of conn c)))
                 sel)
    /\ (forall c, In c sel -> forallb converts (messages_of conn c) = true).
Proof.
  induction chats as [|c chats IH]; intros st st'; cbn [for_each].
  - intros E. injection E as <-. cbn.
    refine (conj _ (conj _ (conj _ (conj _ (conj _ (conj _ _))))));
      try reflexivity; try lia; try contradiction; auto.
  - destruct (chat_step conn readable_dir contact_filter st c) as [st1|] eqn:E1;
      [|discriminate].
    cbn [bind]. intros E. apply IH in E. cbv zeta in E.
    destruct E as (He & Ht & Htr & Hg & Hp & Hn & Hc).
    cbn [filter]. destruct (selected conn contact_filter c) eqn:Hsel.
    + apply (chat_step_counts _ _ _ _ _ Hsel) in E1. cbv zeta in E1.
      destruct E1 as (Hc1 & He1 & Ht1 & Hg1 & Hp1 & Hn1 & added & Htr1 & _).
      cbn [List.length map rev].
      match goal with
      | |- context [list_sum (?a :: ?l)] =>
          change (list_sum (a :: l)) with (a + list_sum l)
      end.
      match goal with
      | |- context [list_sum (?a :: ?l)] =>
          change (list_sum (a :: l)) with (a + list_sum l)
      end.
      change (get_messages_for_chat conn (chat_id c))
        with (messages_of conn c) in *.
      refine (conj _ (conj _ (conj _ (conj _ (conj _ (conj _ _))))));
        [lia|lia| |auto| |lia|].
      * rewrite Htr, Htr1. cbn [map fst]. now rewrite <- app_assoc.
      * intros c' [<-|Hin]; [now apply Hg|now apply Hp].
      * intros c' [<-|Hin]; [exact Hc1|now apply Hc].
    + rewrite (chat_step_skip _ _ _ st c Hsel) in E1. injection E1 as <-.
      refine (conj _ (conj _ (conj _ (conj _ (conj _ (conj _ _))))));
        assumption.
Qed.

(** Property X9: a conversation that passes the filter and has messages
    is counted once and all its messages are counted; the path of its
    folder is [os.path.join] of the readable folder and the sanitised
    conversation name, which is its last component (the name is not
    empty, and since the sanitiser keeps the names of one and of two
    dots, the folder can be the readable folder or its parent); its
    transcript, [chat.txt] after that path, exists afterwards and holds
    the header followed by at most one line per message. *)
Theorem chat_step_transcript st c st' :
  selected conn contact_filter c = true ->
  chat_step conn readable_dir contact_filter st c = Returns st' ->
  let name := get_chat_display_name c in
  let safe := sanitize_filename (Some name) in
  let chat_dir := os_path.join readable_dir safe in
  nonempty name = true
  /\ os_path.basename chat_dir = safe
  /\ os_path.join chat_dir (lit "attachments") = chat_dir ++ lit "/attachments"
  /\ exported_chats st' = S (exported_chats st)
  /\ total_messages st' = total_messages st + List.length (messages_of conn c)
  /\ os_path.exists_ (fs st') (chat_dir ++ lit "/chat.txt") = true
  /\ exists added,
       transcripts st'
       = (chat_dir ++ lit "/chat.txt",
          join [newline] (header c name (messages_of conn c) ++ added)
          ++ [newline]) :: transcripts st
       /\ List.length added <= List.length (messages_of conn c).
Proof.
  intros Hsel Hstep name safe chat_dir.
  destruct (sanitized_directory readable_dir (Some name))
    as (Hbase & Hne & Hend).
  fold safe chat_dir in Hbase, Hne, Hend.
  assert (Hjoin : forall leaf,
             plain_name leaf ->
             os_path.join chat_dir leaf = chat_dir ++ [os_path.sep] ++ leaf)
    by (intros leaf Hleaf; now apply join_plain).
  assert (Hpath : transcript_path_of readable_dir c
                  = chat_dir ++ lit "/chat.txt")
    by (unfold transcript_path_of; fold name safe chat_dir; now apply Hjoin).
  apply (chat_step_counts _ _ _ _ _ Hsel) in Hstep. cbv zeta in Hstep.
  destruct Hstep as (_ & He & Ht & _ & Hp & _ & added & Htr & Hlen).
  rewrite Hpath in Hp, Htr.
  refine (conj _ (conj _ (conj _ (conj _ (conj _ (conj _ _))))));
    [|exact Hbase|now apply Hjoin|exact He|exact Ht|exact Hp|].
  - unfold name, get_chat_display_name.
    destruct (display_name c) as [[|? ?]|]; try reflexivity;
      destruct (participants c) as [[|? ?]|]; try reflexivity;
      destruct (chat_identifier c) as [[|? ?]|]; reflexivity.
  - exists added. split; [exact Htr|exact Hlen].
Qed.

End Conversations.

Section Totals.
Context `{Host}.

(** Property X10: the export returns the number of conversations that
    pass the filter and have messages, the number of their messages,
    and at most the number of attachment records of their messages that
    are no reactions; it writes one transcript for each of them. *)
Theorem do_readable_export_totals conn fs0 dest_dir contact_filter st :
  do_readable_export conn fs0 dest_dir contact_filter = Returns st ->
  let written := exported conn contact_filter in
  exported_chats st = List.length written
  /\ total_messages st
     = list_sum (map (fun c => List.length (messages_of conn c)) written)
  /\ total_attachments_copied st
     <= list_sum
          (map (fun c =>
                  list_sum (map (visited_attachments conn)
                              (messages_of conn c)))
             written)
  /\ map fst (transcripts st)
     = rev (map (transcript_path_of
                   (os_path.join dest_dir (lit "readable"))) written).
Proof.
  unfold do_readable_export, exported. intros E.
  apply chat_loop_counts in E. cbv zeta in E.
  destruct E as (He & Ht & Htr & _ & _ & Hn & _).
  cbn [exported_chats total_messages transcripts total_attachments_copied
       map] in *.
  rewrite app_nil_r in Htr. repeat split; try assumption; lia.
Qed.

(** Property X11: an export that returns has converted the timestamp of
    every message of every exported conversation; one message of such a
    conversation whose timestamp does not convert keeps the export from
    returning. *)
Theorem do_readable_export_converts_all conn fs0 dest_dir contact_filter st :
  do_readable_export conn fs0 dest_dir contact_filter = Returns st ->
  forall c msg,
    In c (exported conn contact_filter) ->
    In msg (messages_of conn c) ->
    exists dt, apple_timestamp_to_datetime (message_date msg) = Returns dt.
Proof.
  unfold do_readable_export, exported.
  intros E c msg Hc Hmsg. apply chat_loop_counts in E. cbv zeta in E.
  destruct E as (_ & _ & _ & _ & _ & _ & Hconv).
  specialize (Hconv c Hc). rewrite forallb_forall in Hconv.
  specialize (Hconv msg Hmsg). unfold converts in Hconv.
  destruct (apple_timestamp_to_datetime (message_date msg)) as [dt|];
    [now exists dt|discriminate].
Qed.

(** Property X12: after the export every path that existed still exists,
    and so do the readable folder and every transcript written. *)
Theorem do_readable_export_keeps_paths conn fs0 dest_dir contact_filter st :
  do_readable_export conn fs0 dest_dir contact_filter = Returns st ->
  (forall q, os_path.exists_ fs0 q = true -> os_path.exists_ (fs st) q = true)
  /\ os_path.exists_ (fs st) (os_path.join dest_dir (lit "readable")) = true
  /\ (forall path, In path (map fst (transcripts st)) ->
                   os_path.exists_ (fs st) path = true).
Proof.
  unfold do_readable_export. intros E.
  apply chat_loop_counts in E. cbv zeta in E.
  destruct E as (_ & _ & Htr & Hg & Hp & _ & _).
  cbn [fs transcripts map] in *. rewrite app_nil_r in Htr.
  split; [|split].
  - intros q Hq. now apply Hg, exists_create_keeps.
  - apply Hg, exists_create. now left.
  - intros path Hin. rewrite Htr, <- in_rev in Hin.
    apply in_map_iff in Hin. destruct Hin as (c & <- & Hc). now apply Hp.
Qed.

(** Property X13: when the export without filter and the export with a
    filter both return, from whatever file systems, the filtered one
    counts no more conversations and no more messages, and writes
    transcripts only at paths where the unfiltered one writes them. *)
Theorem contact_filter_narrows conn fs0 fs1 dest_dir contact_filter st st_f :
  do_readable_export conn fs0 dest_dir None = Returns st ->
  do_readable_export conn fs1 dest_dir contact_filter = Returns st_f ->
  exported_chats st_f <= exported_chats st
  /\ total_messages st_f <= total_messages st
  /\ incl (map fst (transcripts st_f)) (map fst (transcripts st)).
Proof.
  intros E Ef.
  assert (Hsel : forall c, selected conn contact_filter c = true ->
                   selected conn None c = true).
  { intros c. unfold selected. cbn [truthy andb negb].
    destruct (negb _); [trivial|discriminate]. }
  destruct (filter_narrow_length (selected conn contact_filter)
              (selected conn None)
              (fun c => List.length (messages_of conn c))
              (get_chats conn) Hsel) as (Hlen & Hsum & Hincl).
  unfold do_readable_export in E, Ef.
  apply chat_loop_counts in E. apply chat_loop_counts in Ef.
  cbv zeta in E, Ef.
  destruct E as (He & Ht & Htr & _). destruct Ef as (Hef & Htf & Htrf & _).
  cbn [exported_chats total_messages transcripts map] in *.
  rewrite app_nil_r in Htr, Htrf.
  split; [lia|]. split; [lia|].
  rewrite Htr, Htrf. intros p Hp. rewrite <- in_rev in Hp.
  rewrite <- in_rev. apply in_map_iff in Hp. destruct Hp as (c & <- & Hc).
  apply in_map. now apply Hincl.
Qed.

End Totals.

(** ** The further properties on the sample data *)

Lemma sanitize_filename_unknown_witness :
  sanitize_filename (Some (lit "/_ :?")) = lit "Unknown".
Proof. apply sanitize_filename_unknown. vm_compute. reflexivity. Defined.

Lemma copy_attachment_file_never_overwrites_witness :
  (plain_name (lit "IMG_0001.jpg")
   /\ exists p, os_path.exists_ Example.disk p = false
                /\ Example.disk_with_photo = p :: Example.disk
                /\ lit "IMG_0001.jpg" = os_path.basename p)
  /\ exists p,
       @copy2 UTC.interrupted Example.disk
         (@source_path_of UTC.interrupted Example.photo) p = Failed true
       /\ Example.disk_with_photo = p :: Example.disk.
Proof.
  assert (Hcopy : @copy_attachment_file UTC.reliable Example.disk
                    Example.photo Example.att_dir
                  = (Some (lit "IMG_0001.jpg"), Example.disk_with_photo))
    by (vm_compute; reflexivity).
  assert (Hfail : @copy_attachment_file UTC.interrupted Example.disk
                    Example.photo Example.att_dir
                  = (None, Example.disk_with_photo))
    by (vm_compute; reflexivity).
  destruct (@copy_attachment_file_never_overwrites UTC.reliable _ _ _ _ _
              Hcopy) as (_ & _ & _ & _ & Hname & _).
  destruct (@copy_attachment_file_never_overwrites UTC.interrupted _ _ _ _ _
              Hfail) as (_ & _ & _ & _ & _ & Hleft).
  split.
  - destruct (Hname _ eq_refl) as (Hplain & p & Hfree & Hfs & Hbase & _).
    split; [exact Hplain|]. exists p. repeat split; assumption.
  - destruct (Hleft eq_refl) as (p & _ & Hc & Hfs); [discriminate|].
    exists p. split; assumption.
Defined.

Lemma copy_attachment_file_in_directory_witness :
  Example.disk_with_photo
  = (Example.att_dir ++ [os_path.sep] ++ lit "IMG_0001.jpg") :: Example.disk.
Proof.
  assert (Hcopy : @copy_attachment_file UTC.reliable Example.disk
                    Example.photo Example.att_dir
                  = (Some (lit "IMG_0001.jpg"), Example.disk_with_photo))
    by (vm_compute; reflexivity).
  assert (Hplain : plain_name (@dest_name_of UTC.reliable Example.photo))
    by (vm_compute; reflexivity).
  assert (Hdir : nonempty Example.att_dir = true) by reflexivity.
  assert (Hend : endswith [os_path.sep] Example.att_dir = false)
    by (vm_compute; reflexivity).
  destruct (@copy_attachment_file_in_directory UTC.reliable _ _ _ _ _
              Hplain Hdir Hend Hcopy) as (Hfs & _).
  exact Hfs.
Defined.

Lemma copy_attachment_file_absolute_name_witness :
  @copy_attachment_file UTC.reliable Example.disk Edge.stray Example.att_dir
  = (Some (lit "IMG_0001.jpg"), lit "/tmp/IMG_0001.jpg" :: Example.disk)
  /\ @copy_attachment_file UTC.reliable Example.disk Edge.stray
       Example.att_dir
     = @copy_attachment_file UTC.reliable Example.disk Edge.stray
         Example.backup.
Proof.
  assert (Habs : startswith [os_path.sep]
                   (@dest_name_of UTC.reliable Edge.stray) = true)
    by (vm_compute; reflexivity).
  destruct (@copy_attachment_file_absolute_name UTC.reliable Example.disk
              Edge.stray Habs) as (Hsame & _).
  split; [vm_compute; reflexivity|apply Hsame].
Defined.

Lemma message_step_effect_witness :
  exists st' lines',
    @message_step UTC.reliable Example.db Example.att_dir
      (Example.start, []) Example.hello = Returns (st', lines')
    /\ total_messages st' = 1
    /\ lines' <> [].
Proof.
  eassert (Hstep : @message_step UTC.reliable Example.db Example.att_dir
                     (Example.start, []) Example.hello = Returns (_, _))
    by (vm_compute; reflexivity).
  destruct (@message_step_effect UTC.reliable _ _ _ _ _ _ _ Hstep)
    as (Hcount & _ & _ & _ & _ & _ & Hnone).
  eexists. eexists. split; [exact Hstep|]. split; [exact Hcount|].
  intros E. apply Hnone in E. destruct E as (_ & _ & E). vm_compute in E.
  discriminate.
Defined.

Lemma chat_step_transcript_witness :
  exists st',
    @chat_step UTC.reliable Example.db Example.readable_dir None
      Example.start Example.friend = Returns st'
    /\ exported_chats st' = 1
    /\ total_messages st' = 3.
Proof.
  assert (Hsel : @selected UTC.reliable Example.db None Example.friend = true)
    by (vm_compute; reflexivity).
  eassert (Hstep : @chat_step UTC.reliable Example.db Example.readable_dir
                     None Example.start Example.friend = Returns _)
    by (vm_compute; reflexivity).
  destruct (@chat_step_transcript UTC.reliable _ _ _ _ _ _ Hsel Hstep)
    as (_ & _ & _ & Hchats & Hmsgs & _).
  eexists. split; [exact Hstep|]. split; [exact Hchats|exact Hmsgs].
Defined.

Lemma do_readable_export_totals_witness :
  exists st,
    @do_readable_export UTC.reliable Example.db Example.disk Example.backup
      None = Returns st
    /\ exported_chats st = 1
    /\ total_messages st = 3
    /\ total_attachments_copied st <= 1.
Proof.
  eassert (Hrun : @do_readable_export UTC.reliable Example.db Example.disk
                    Example.backup None = Returns _)
    by (vm_compute; reflexivity).
  destruct (@do_readable_export_totals UTC.reliable _ _ _ _ _ Hrun)
    as (Hchats & Hmsgs & Hcopied & _).
  eexists. split; [exact Hrun|]. split; [exact Hchats|].
  split; [exact Hmsgs|exact Hcopied].
Defined.

Lemma do_readable_export_keeps_paths_witness :
  exists st,
    @do_readable_export UTC.reliable Example.db Example.disk Example.backup
      None = Returns st
    /\ os_path.exists_ (fs st) Example.readable_dir = true
    /\ os_path.exists_ (fs st) Example.chat_txt = true.
Proof.
  eassert (Hrun : @do_readable_export UTC.reliable Example.db Example.disk
                    Example.backup None = Returns _)
    by (vm_compute; reflexivity).
  destruct (@do_readable_export_keeps_paths UTC.reliable _ _ _ _ _ Hrun)
    as (_ & Hdir & Hfiles).
  eexists. split; [exact Hrun|]. split; [exact Hdir|].
  apply Hfiles. vm_compute. now left.
Defined.

Lemma do_readable_export_converts_all_witness :
  exists dt,
    @apple_timestamp_to_datetime UTC.reliable (message_date Example.liked)
    = Returns dt.
Proof.
  eassert (Hrun : @do_readable_export UTC.reliable Example.db Example.disk
                    Example.backup None = Returns _)
    by (vm_compute; reflexivity).
  apply (@do_readable_export_converts_all UTC.reliable _ _ _ _ _ Hrun
           Example.friend Example.liked).
  - vm_compute. now left.
  - vm_compute. right. now left.
Defined.

Lemma contact_filter_narrows_witness :
  exists st st_f,
    @do_readable_export UTC.reliable Example.db Example.disk Example.backup
      None = Returns st
    /\ @do_readable_export UTC.reliable Example.db Example.disk Example.backup
         (Some (lit "+1666")) = Returns st_f
    /\ exported_chats st_f <= exported_chats st
    /\ total_messages st_f <= total_messages st.
Proof.
  eassert (Hrun : @do_readable_export UTC.reliable Example.db Example.disk
                    Example.backup None = Returns _)
    by (vm_compute; reflexivity).
  eassert (Hf : @do_readable_export UTC.reliable Example.db Example.disk
                  Example.backup (Some (lit "+1666")) = Returns _)
    by (vm_compute; reflexivity).
  destruct (@contact_filter_narrows UTC.reliable _ _ _ _ _ _ _ Hrun Hf)
    as (Hchats & Hmsgs & _).
  eexists. eexists. split; [exact Hrun|]. split; [exact Hf|].
  split; [exact Hchats|exact Hmsgs].
Defined.
